(** * useragent: a shallow embedding of ua.go and its specification properties

    The development follows the layout of ua.go:
    - [Go]: the fragment of the Go runtime and of the packages [bytes],
      [strings] and [regexp] that ua.go calls.  Indexing and slicing return
      [option], [None] standing for a run-time panic.
    - the token store ([property], [properties] and its methods),
    - the tokenizer ([ignore], [checkVer], [addToken], [parse]),
    - the classifier ([Parse]) with its two [switch] statements and the
      post-pass,
    - the properties of the specification. *)

From Stdlib Require Import Bool Arith ZArith Lia List Ascii String.
Import ListNotations.

Open Scope list_scope.
Open Scope string_scope.
Open Scope Z_scope.

(** ** The error monad: [None] is a panic *)

Notation "x <- e ;; k" :=
  (match e with Some x => k | None => None end)
  (at level 61, e at next level, right associativity).
Notation "' p <- e ;; k" :=
  (match e with Some p => k | None => None end)
  (at level 61, p pattern, e at next level, right associativity).

(** ** Go strings, byte slices and the library functions used by ua.go

    A Go [string] and a [[]byte] are both sequences of bytes; they are
    modelled by [string], whose characters are the 256 byte values. *)

Module Go.

Definition len (s : string) : Z := Z.of_nat (String.length s).

Definition byte (c : ascii) : Z := Z.of_N (N_of_ascii c).

(** [s[i]]: panics out of range. *)
Definition index (s : string) (i : Z) : option ascii :=
  if (0 <=? i) && (i <? len s) then String.get (Z.to_nat i) s else None.

(** [s[lo:hi]]: panics unless [0 <= lo <= hi <= len(s)]. *)
Definition slice (s : string) (lo hi : Z) : option string :=
  if (0 <=? lo) && (lo <=? hi) && (hi <=? len s)
  then Some (substring (Z.to_nat lo) (Z.to_nat (hi - lo)) s)
  else None.

Definition llen {A} (l : list A) : Z := Z.of_nat (List.length l).

(** [l[i]] on a slice of tokens. *)
Definition lindex {A} (l : list A) (i : Z) : option A :=
  if (0 <=? i) && (i <? llen l) then nth_error l (Z.to_nat i) else None.

(** [l[lo:hi]] on a slice of tokens. *)
Definition lslice {A} (l : list A) (lo hi : Z) : option (list A) :=
  if (0 <=? lo) && (lo <=? hi) && (hi <=? llen l)
  then Some (firstn (Z.to_nat (hi - lo)) (skipn (Z.to_nat lo) l))
  else None.

(** [l[i] = x] on a slice of tokens. *)
Fixpoint replaceNth {A} (l : list A) (n : nat) (x : A) : list A :=
  match l, n with
  | [], _ => []
  | _ :: r, O => x :: r
  | y :: r, S n' => y :: replaceNth r n' x
  end.

Definition lset {A} (l : list A) (i : Z) (x : A) : option (list A) :=
  if (0 <=? i) && (i <? llen l) then Some (replaceNth l (Z.to_nat i) x) else None.

(** [bytes.Buffer.WriteByte] *)
Definition WriteByte (b : string) (c : ascii) : string := b ++ String c EmptyString.

(** [strings.HasPrefix], [bytes.HasPrefix] *)
Definition HasPrefix (s p : string) : bool := String.prefix p s.

(** [strings.HasSuffix], [bytes.HasSuffix] *)
Definition HasSuffix (s suf : string) : bool :=
  let n := String.length s in
  let m := String.length suf in
  (m <=? n)%nat && String.eqb (substring (n - m) m s) suf.

(** [strings.TrimPrefix], [bytes.TrimPrefix] *)
Definition TrimPrefix (s p : string) : string :=
  if HasPrefix s p
  then substring (String.length p) (String.length s - String.length p) s
  else s.

(** [strings.TrimSuffix] *)
Definition TrimSuffix (s suf : string) : string :=
  if HasSuffix s suf
  then substring 0 (String.length s - String.length suf) s
  else s.

(** [strings.Contains] *)
Fixpoint Contains (s sub : string) : bool :=
  String.prefix sub s ||
  match s with
  | EmptyString => false
  | String _ s' => Contains s' sub
  end.

(** [bytes.LastIndex]: the index of the last occurrence of [sep], or -1. *)
Fixpoint lastIndexFrom (s sep : string) (i acc : Z) : Z :=
  let acc' := if String.prefix sep s then i else acc in
  match s with
  | EmptyString => acc'
  | String _ s' => lastIndexFrom s' sep (i + 1) acc'
  end.

Definition LastIndex (s sep : string) : Z := lastIndexFrom s sep 0 (-1).

(** [strings.ToLower].  Go maps every rune through [unicode.ToLower].  The
    model lowers the ASCII letters and leaves the other bytes alone.  ua.go
    only searches the result for "tablet" and for "bot"; the two
    non-ASCII runes whose lower case is ASCII give 'k' and 'i', which occur
    in neither word, so these searches give the same answer. *)
Definition lowerByte (c : ascii) : ascii :=
  if (65 <=? byte c) && (byte c <=? 90)
  then ascii_of_N (N_of_ascii c + 32)
  else c.

Fixpoint ToLower (s : string) : string :=
  match s with
  | EmptyString => EmptyString
  | String c s' => String (lowerByte c) (ToLower s')
  end.

(** [strings.TrimSpace], [bytes.TrimSpace]: leading and trailing white
    space, as defined by Unicode, is removed.  The white space runes are,
    in UTF-8: the ASCII bytes 9..13 and 32; C2 85; C2 A0; E1 9A 80;
    E2 80 80 .. E2 80 8A; E2 80 A8; E2 80 A9; E2 80 AF; E2 81 9F;
    E3 80 80. *)
Definition isSpace1 (a : ascii) : bool :=
  ((9 <=? byte a) && (byte a <=? 13)) || (byte a =? 32).

Definition isSpace2 (a b : ascii) : bool :=
  (byte a =? 194) && ((byte b =? 133) || (byte b =? 160)).

Definition isSpace3 (a b c : ascii) : bool :=
  ((byte a =? 225) && (byte b =? 154) && (byte c =? 128))
  || ((byte a =? 226) && (byte b =? 128)
      && (((128 <=? byte c) && (byte c <=? 138))
          || (byte c =? 168) || (byte c =? 169) || (byte c =? 175)))
  || ((byte a =? 226) && (byte b =? 129) && (byte c =? 159))
  || ((byte a =? 227) && (byte b =? 128) && (byte c =? 128)).

(** Leading white space runes are dropped. With [back = true] the string
    is read from its end (it is given reversed). *)
Fixpoint dropSpace (back : bool) (s : string) : string :=
  match s with
  | EmptyString => EmptyString
  | String a s1 =>
      if isSpace1 a then dropSpace back s1 else
      match s1 with
      | EmptyString => s
      | String b s2 =>
          if (if back then isSpace2 b a else isSpace2 a b) then dropSpace back s2 else
          match s2 with
          | EmptyString => s
          | String c s3 =>
              if (if back then isSpace3 c b a else isSpace3 a b c)
              then dropSpace back s3 else s
          end
      end
  end.

Fixpoint revAppend (s acc : string) : string :=
  match s with
  | EmptyString => acc
  | String c s' => revAppend s' (String c acc)
  end.

Definition reverse (s : string) : string := revAppend s EmptyString.

Definition TrimSpace (s : string) : string :=
  reverse (dropSpace true (reverse (dropSpace false s))).

(** [regexp.MustCompile(`[_\d\.]+`).FindString]: the leftmost, longest run
    of underscores, ASCII digits and dots; the empty string when there is none. *)
Definition isVerByte (c : ascii) : bool :=
  (byte c =? 95) || ((48 <=? byte c) && (byte c <=? 57)) || (byte c =? 46).

Fixpoint takeRun (s : string) : string :=
  match s with
  | EmptyString => EmptyString
  | String c s' => if isVerByte c then String c (takeRun s') else EmptyString
  end.

Fixpoint FindVerRun (s : string) : string :=
  match s with
  | EmptyString => EmptyString
  | String c s' => if isVerByte c then takeRun s else FindVerRun s'
  end.

(** [strings.Replace(s, "_", ".", -1)]: every byte [old] becomes [new]. *)
Fixpoint ReplaceByte (s : string) (old new : ascii) : string :=
  match s with
  | EmptyString => EmptyString
  | String c s' =>
      String (if Ascii.eqb c old then new else c) (ReplaceByte s' old new)
  end.

End Go.

(** ** The token store *)

Record property := { Key : string; Value : string }.

(** [properties] is a struct with the single field [list []property]; it is
    modelled by the list itself.  A method that mutates the store returns
    the new store. *)
Definition properties := list property.

(** Constants of ua.go *)
Definition Windows := "Windows".
Definition WindowsPhone := "Windows Phone".
Definition Android := "Android".
Definition MacOS := "macOS".
Definition IOS := "iOS".
Definition Linux := "Linux".
Definition FreeBSD := "FreeBSD".
Definition ChromeOS := "ChromeOS".
Definition BlackBerry := "BlackBerry".

Definition Opera := "Opera".
Definition OperaMini := "Opera Mini".
Definition OperaTouch := "Opera Touch".
Definition Chrome := "Chrome".
Definition HeadlessChrome := "Headless Chrome".
Definition Firefox := "Firefox".
Definition InternetExplorer := "Internet Explorer".
Definition Safari := "Safari".
Definition Edge := "Edge".
Definition Vivaldi := "Vivaldi".

Definition GoogleAdsBot := "Google Ads Bot".
Definition Googlebot := "Googlebot".
Definition Twitterbot := "Twitterbot".
Definition FacebookExternalHit := "facebookexternalhit".
Definition Applebot := "Applebot".
Definition Bingbot := "Bingbot".

Definition FacebookApp := "Facebook App".
Definition InstagramApp := "Instagram App".
Definition TiktokApp := "TikTok App".

(** A [switch] over string constants: is [s] one of [cases]? *)
Fixpoint oneOf (s : string) (cases : list string) : bool :=
  match cases with
  | [] => false
  | c :: r => (s =? c)%string || oneOf s r
  end.

Definition add (p : properties) (key value : string) : properties :=
  (p ++ [{| Key := key; Value := value |}])%list.

Fixpoint get (p : properties) (key : string) : string :=
  match p with
  | [] => EmptyString
  | prop :: r => if (Key prop =? key)%string then Value prop else get r key
  end.

Fixpoint getIndexValueFrom (p : properties) (i : Z) (key : string) : Z * string :=
  match p with
  | [] => (-1, EmptyString)
  | prop :: r =>
      if (Key prop =? key)%string then (i, Value prop)
      else getIndexValueFrom r (i + 1) key
  end.

Definition getIndexValue (p : properties) (key : string) : Z * string :=
  getIndexValueFrom p 0 key.

Fixpoint exists_ (p : properties) (key : string) : bool :=
  match p with
  | [] => false
  | prop :: r => if (Key prop =? key)%string then true else exists_ r key
  end.

Fixpoint existsAny (p : properties) (keys : list string) : bool :=
  match keys with
  | [] => false
  | k :: ks => if exists_ p k then true else existsAny p ks
  end.

Fixpoint startsWith (p : properties) (value : string) : bool :=
  match p with
  | [] => false
  | prop :: r => if Go.HasPrefix (Key prop) value then true else startsWith r value
  end.

Definition findVersion (s : string) : string :=
  let ver := Go.FindVerRun s in
  if negb (ver =? EmptyString)%string then Go.ReplaceByte ver "_"%char "."%char
  else EmptyString.

Fixpoint findMacOSVersion (p : properties) : string :=
  match p with
  | [] => EmptyString
  | token :: r =>
      if Go.Contains (Key token) "OS" then
        if negb (findVersion (Value token) =? EmptyString)%string
        then findVersion (Value token)
        else if negb (findVersion (Key token) =? EmptyString)%string
        then findVersion (Key token)
        else findMacOSVersion r
      else findMacOSVersion r
  end.

Fixpoint findInstagramVersion (p : properties) : string :=
  match p with
  | [] => EmptyString
  | token :: r =>
      if Go.HasPrefix (Key token) "Instagram" then
        if negb (findVersion (Value token) =? EmptyString)%string
        then findVersion (Value token)
        else if negb (findVersion (Key token) =? EmptyString)%string
        then findVersion (Key token)
        else findInstagramVersion r
      else findInstagramVersion r
  end.

(** [a && b] where evaluating [b] may panic and is skipped when [a] is false. *)
Definition andAlso (a : bool) (b : option bool) : option bool :=
  if a then b else Some false.

(** The keys [findBestMatch] never picks. *)
Definition genericTokens : list string :=
  [Chrome; Firefox; Safari; "Version"; "Mobile"; "Mobile Safari"; "Mozilla";
   "AppleWebKit"; "Windows NT"; "Windows Phone OS"; Android; "Macintosh";
   Linux; "GSA"; "CrOS"; "Tablet"].

(** [len(prop.Key) != 0 && prop.Key[0] >= 48 && prop.Key[0] <= 57] *)
Definition startsWithNumber (key : string) : option bool :=
  andAlso (negb (Go.len key =? 0))
    (c <- Go.index key 0 ;;
     andAlso (Go.byte c >=? 48)
       (c' <- Go.index key 0 ;; Some (Go.byte c' <=? 57))).

(** One run of the inner loop of [findBestMatch], in pass [i]: [Some k] when
    the loop returns [k], [None] when it runs to its end. *)
Fixpoint bestMatchPass (i : Z) (l : list property) : option (option string) :=
  match l with
  | [] => Some None
  | prop :: r =>
      if oneOf (Key prop) genericTokens then bestMatchPass i r
      else
        num <- startsWithNumber (Key prop) ;;
        if num then bestMatchPass i r
        else if i =? 0 then
          if negb (Value prop =? EmptyString)%string then Some (Some (Key prop))
          else bestMatchPass i r
        else Some (Some (Key prop))
  end.

(** The outer loop [for i := 0; i < n; i++], with [k] passes left. *)
Fixpoint bestMatchLoop (k : nat) (i : Z) (p : properties) : option string :=
  match k with
  | O => Some EmptyString
  | S k' =>
      r <- bestMatchPass i p ;;
      match r with
      | Some key => Some key
      | None => bestMatchLoop k' (i + 1) p
      end
  end.

Definition findBestMatch (p : properties) (withVerOnly : bool) : option string :=
  let n := if withVerOnly then 1 else 2 in
  bestMatchLoop (Z.to_nat n) 0 p.

(** The keys [findAndroidDevice] does not take for a device name. *)
Definition notDeviceTokens : list string :=
  [Chrome; Firefox; Safari; "Opera Mini"; "Presto"; "Version"; "Mobile";
   "Mobile Safari"; "Mozilla"; "AppleWebKit"; "Windows NT";
   "Windows Phone OS"; Android; "Macintosh"; Linux; "CrOS"].

(** [len(dev) == 2 || (len(dev) == 5 && dev[2] == '-')] *)
Definition looksLikeLanguageTag (dev : string) : option bool :=
  if Go.len dev =? 2 then Some true
  else andAlso (Go.len dev =? 5)
         (c <- Go.index dev 2 ;; Some (Go.byte c =? 45)).

(** [findAndroidDevice]: the loop [for i := startIndex; i < startIndex+1; i++]
    runs its body once, with [i = startIndex]; [continue] and the end of the
    body both leave the loop and return the empty string.  The result is the
    device name and the store after the call. *)
Definition findAndroidDevice (p : properties) (startIndex : Z)
  : option (string * properties) :=
  let i := startIndex in
  if Go.llen p >? i + 1 then
    tok <- Go.lindex p (i + 1) ;;
    let dev := Key tok in
    tag <- looksLikeLanguageTag dev ;;
    if tag then Some (EmptyString, p)
    else if oneOf dev notDeviceTokens then Some (EmptyString, p)
    else
      p' <- (if Go.Contains (Go.ToLower dev) "tablet" then
               Go.lset p (i + 1) {| Key := "Tablet"; Value := Value tok |}
             else
               l <- Go.lslice p 0 (i + 1) ;;
               r <- Go.lslice p (i + 2) (Go.llen p) ;;
               Some (l ++ r)%list) ;;
      Some (Go.TrimSpace (Go.TrimSuffix dev "Build"), p')
  else Some (EmptyString, p).

(** ** The tokenizer *)

(** [ignore] returns true if the token should be ignored. *)
Definition ignore (s : string) : bool :=
  (s =? "KHTML, like Gecko")%string ||
  (s =? "U")%string ||
  (s =? "compatible")%string ||
  (s =? "Mozilla")%string ||
  (s =? "WOW64")%string ||
  (s =? "en")%string ||
  (s =? "en-us")%string ||
  (s =? "en-gb")%string ||
  (s =? "ru-ru")%string ||
  (s =? "Browser")%string.

(** [checkVer] returns the key and the version split off it; a nil version
    is the empty string once [add] has stored it. *)
Definition checkVer (s : string) : option (string * string) :=
  let i := Go.LastIndex s " " in
  if i =? -1 then Some (s, EmptyString)
  else
    si <- Go.slice s 0 i ;;
    if (si =? "Linux")%string || (si =? "Windows NT")%string
       || (si =? "Windows Phone OS")%string || (si =? "MSIE")%string
       || (si =? "Android")%string
    then
      v <- Go.slice s (i + 1) (Go.len s) ;;
      Some (si, v)
    else if (si =? "CrOS x86_64")%string || (si =? "CrOS aarch64")%string
            || (si =? "CrOS armv7l")%string
    then
      let j := Go.LastIndex si " " in
      k <- Go.slice s 0 j ;;
      v <- Go.slice s (j + 1) i ;;
      Some (k, v)
    else Some (s, EmptyString).

(** The local variables of [parse]: the two buffers, the flags and the
    token store being filled. *)
Record scanner := {
  buff : string;
  val : string;
  slash : bool;
  isURL : bool;
  parOpen : bool;
  braOpen : bool;
  toks : properties
}.

Definition withBuff (st : scanner) (b : string) : scanner :=
  {| buff := b; val := val st; slash := slash st; isURL := isURL st;
     parOpen := parOpen st; braOpen := braOpen st; toks := toks st |}.

Definition withVal (st : scanner) (v : string) : scanner :=
  {| buff := buff st; val := v; slash := slash st; isURL := isURL st;
     parOpen := parOpen st; braOpen := braOpen st; toks := toks st |}.

Definition withSlash (st : scanner) (b : bool) : scanner :=
  {| buff := buff st; val := val st; slash := b; isURL := isURL st;
     parOpen := parOpen st; braOpen := braOpen st; toks := toks st |}.

Definition withIsURL (st : scanner) (b : bool) : scanner :=
  {| buff := buff st; val := val st; slash := slash st; isURL := b;
     parOpen := parOpen st; braOpen := braOpen st; toks := toks st |}.

Definition withParOpen (st : scanner) (b : bool) : scanner :=
  {| buff := buff st; val := val st; slash := slash st; isURL := isURL st;
     parOpen := b; braOpen := braOpen st; toks := toks st |}.

Definition withBraOpen (st : scanner) (b : bool) : scanner :=
  {| buff := buff st; val := val st; slash := slash st; isURL := isURL st;
     parOpen := parOpen st; braOpen := b; toks := toks st |}.

(** The closure [addToken] of [parse]. *)
Definition addToken (st : scanner) : option scanner :=
  toks' <-
    (if negb (Go.len (buff st) =? 0) then
       let s := Go.TrimSpace (buff st) in
       if negb (ignore s) then
         let s := if isURL st then Go.TrimPrefix s "+" else s in
         if Go.len (val st) =? 0 then
           ' (s', ver) <- checkVer s ;;
           Some (add (toks st) s' ver)
         else Some (add (toks st) s (Go.TrimSpace (val st)))
       else Some (toks st)
     else Some (toks st)) ;;
  Some {| buff := EmptyString; val := EmptyString; slash := false;
          isURL := false; parOpen := parOpen st; braOpen := braOpen st;
          toks := toks' |}.

(** The body of the loop of [parse] at index [i]. *)
Definition scanByte (userAgent : string) (i : Z) (st : scanner) : option scanner :=
  c <- Go.index userAgent i ;;
  let b := Go.byte c in
  if b =? 41 then
    st' <- addToken st ;; Some (withParOpen st' false)
  else if (parOpen st || braOpen st) && (b =? 59) then addToken st
  else if b =? 59 then addToken st
  else if b =? 40 then
    st' <- addToken st ;; Some (withParOpen st' true)
  else if b =? 91 then
    st' <- addToken st ;; Some (withBraOpen st' true)
  else if b =? 93 then
    st' <- addToken st ;; Some (withBraOpen st' false)
  else if b =? 58 then
    if Go.HasSuffix (buff st) "http" || Go.HasSuffix (buff st) "https" then
      Some (withBuff st (Go.WriteByte (buff st) c))
    else
      sep <- andAlso (negb (i =? Go.len userAgent - 1))
               (n <- Go.index userAgent (i + 1) ;; Some (negb (Go.byte n =? 32))) ;;
      if sep then Some (withBuff st (Go.WriteByte (buff st) " "%char))
      else Some st
  else if slash st && (b =? 32) then addToken st
  else if slash st then Some (withVal st (Go.WriteByte (val st) c))
  else if (b =? 47) && negb (isURL st) then
    url <- andAlso (negb (i =? Go.len userAgent - 1))
             (n <- Go.index userAgent (i + 1) ;;
              Some ((Go.byte n =? 47)
                    && (Go.HasSuffix (buff st) "http:"
                        || Go.HasSuffix (buff st) "https:"))) ;;
    if url then Some (withIsURL (withBuff st (Go.WriteByte (buff st) c)) true)
    else if ignore (buff st) then Some (withBuff st EmptyString)
    else Some (withSlash st true)
  else Some (withBuff st (Go.WriteByte (buff st) c)).

(** [for i := 0; i < len(userAgent); i++], with [n] iterations left. *)
Fixpoint scanLoop (userAgent : string) (n : nat) (i : Z) (st : scanner)
  : option scanner :=
  match n with
  | O => Some st
  | S n' =>
      st' <- scanByte userAgent i st ;;
      scanLoop userAgent n' (i + 1) st'
  end.

(** [parse] fills the token store, which [Parse] has emptied before. *)
Definition parse (userAgent : string) (tokens : properties) : option properties :=
  let st0 := {| buff := EmptyString; val := EmptyString; slash := false;
                isURL := false; parOpen := false; braOpen := false;
                toks := tokens |} in
  st <- scanLoop userAgent (String.length userAgent) 0 st0 ;;
  st' <- addToken st ;;
  Some (toks st').

(** ** The classification result *)

(** Modelled from the spec: the type [VersionNo] is declared outside ua.go.
    The spec's Numeric Version is an ordered sequence of non-negative
    integers; its zero value is the empty sequence. *)
Definition VersionNo_t := list Z.

(** The struct [UserAgent].  The field [String] is written [String_], the
    name [String] being the constructor of strings. *)
Record UserAgent := {
  VersionNo : VersionNo_t;
  OSVersionNo : VersionNo_t;
  URL : string;
  String_ : string;
  Name : string;
  Version : string;
  OS : string;
  OSVersion : string;
  Device : string;
  Mobile : bool;
  Tablet : bool;
  Desktop : bool;
  Bot : bool
}.

(** [UserAgent{String: userAgent}] *)
Definition newUserAgent (userAgent : string) : UserAgent :=
  {| VersionNo := []; OSVersionNo := []; URL := EmptyString;
     String_ := userAgent; Name := EmptyString; Version := EmptyString;
     OS := EmptyString; OSVersion := EmptyString; Device := EmptyString;
     Mobile := false; Tablet := false; Desktop := false; Bot := false |}.

(** Assignments to the fields of [ua]. *)
Definition setVersionNo (ua : UserAgent) (v : VersionNo_t) : UserAgent :=
  {| VersionNo := v; OSVersionNo := OSVersionNo ua; URL := URL ua;
     String_ := String_ ua; Name := Name ua; Version := Version ua;
     OS := OS ua; OSVersion := OSVersion ua; Device := Device ua;
     Mobile := Mobile ua; Tablet := Tablet ua; Desktop := Desktop ua;
     Bot := Bot ua |}.

Definition setOSVersionNo (ua : UserAgent) (v : VersionNo_t) : UserAgent :=
  {| VersionNo := VersionNo ua; OSVersionNo := v; URL := URL ua;
     String_ := String_ ua; Name := Name ua; Version := Version ua;
     OS := OS ua; OSVersion := OSVersion ua; Device := Device ua;
     Mobile := Mobile ua; Tablet := Tablet ua; Desktop := Desktop ua;
     Bot := Bot ua |}.

Definition setURL (ua : UserAgent) (v : string) : UserAgent :=
  {| VersionNo := VersionNo ua; OSVersionNo := OSVersionNo ua; URL := v;
     String_ := String_ ua; Name := Name ua; Version := Version ua;
     OS := OS ua; OSVersion := OSVersion ua; Device := Device ua;
     Mobile := Mobile ua; Tablet := Tablet ua; Desktop := Desktop ua;
     Bot := Bot ua |}.

Definition setName (ua : UserAgent) (v : string) : UserAgent :=
  {| VersionNo := VersionNo ua; OSVersionNo := OSVersionNo ua; URL := URL ua;
     String_ := String_ ua; Name := v; Version := Version ua;
     OS := OS ua; OSVersion := OSVersion ua; Device := Device ua;
     Mobile := Mobile ua; Tablet := Tablet ua; Desktop := Desktop ua;
     Bot := Bot ua |}.

Definition setVersion (ua : UserAgent) (v : string) : UserAgent :=
  {| VersionNo := VersionNo ua; OSVersionNo := OSVersionNo ua; URL := URL ua;
     String_ := String_ ua; Name := Name ua; Version := v;
     OS := OS ua; OSVersion := OSVersion ua; Device := Device ua;
     Mobile := Mobile ua; Tablet := Tablet ua; Desktop := Desktop ua;
     Bot := Bot ua |}.

Definition setOS (ua : UserAgent) (v : string) : UserAgent :=
  {| VersionNo := VersionNo ua; OSVersionNo := OSVersionNo ua; URL := URL ua;
     String_ := String_ ua; Name := Name ua; Version := Version ua;
     OS := v; OSVersion := OSVersion ua; Device := Device ua;
     Mobile := Mobile ua; Tablet := Tablet ua; Desktop := Desktop ua;
     Bot := Bot ua |}.

Definition setOSVersion (ua : UserAgent) (v : string) : UserAgent :=
  {| VersionNo := VersionNo ua; OSVersionNo := OSVersionNo ua; URL := URL ua;
     String_ := String_ ua; Name := Name ua; Version := Version ua;
     OS := OS ua; OSVersion := v; Device := Device ua;
     Mobile := Mobile ua; Tablet := Tablet ua; Desktop := Desktop ua;
     Bot := Bot ua |}.

Definition setDevice (ua : UserAgent) (v : string) : UserAgent :=
  {| VersionNo := VersionNo ua; OSVersionNo := OSVersionNo ua; URL := URL ua;
     String_ := String_ ua; Name := Name ua; Version := Version ua;
     OS := OS ua; OSVersion := OSVersion ua; Device := v;
     Mobile := Mobile ua; Tablet := Tablet ua; Desktop := Desktop ua;
     Bot := Bot ua |}.

Definition setMobile (ua : UserAgent) (v : bool) : UserAgent :=
  {| VersionNo := VersionNo ua; OSVersionNo := OSVersionNo ua; URL := URL ua;
     String_ := String_ ua; Name := Name ua; Version := Version ua;
     OS := OS ua; OSVersion := OSVersion ua; Device := Device ua;
     Mobile := v; Tablet := Tablet ua; Desktop := Desktop ua;
     Bot := Bot ua |}.

Definition setTablet (ua : UserAgent) (v : bool) : UserAgent :=
  {| VersionNo := VersionNo ua; OSVersionNo := OSVersionNo ua; URL := URL ua;
     String_ := String_ ua; Name := Name ua; Version := Version ua;
     OS := OS ua; OSVersion := OSVersion ua; Device := Device ua;
     Mobile := Mobile ua; Tablet := v; Desktop := Desktop ua;
     Bot := Bot ua |}.

Definition setDesktop (ua : UserAgent) (v : bool) : UserAgent :=
  {| VersionNo := VersionNo ua; OSVersionNo := OSVersionNo ua; URL := URL ua;
     String_ := String_ ua; Name := Name ua; Version := Version ua;
     OS := OS ua; OSVersion := OSVersion ua; Device := Device ua;
     Mobile := Mobile ua; Tablet := Tablet ua; Desktop := v;
     Bot := Bot ua |}.

Definition setBot (ua : UserAgent) (v : bool) : UserAgent :=
  {| VersionNo := VersionNo ua; OSVersionNo := OSVersionNo ua; URL := URL ua;
     String_ := String_ ua; Name := Name ua; Version := Version ua;
     OS := OS ua; OSVersion := OSVersion ua; Device := Device ua;
     Mobile := Mobile ua; Tablet := Tablet ua; Desktop := Desktop ua;
     Bot := v |}.

(** Modelled from the spec: the methods [IsAndroid] and [IsIOS] are declared
    outside ua.go.  The spec reads them as "OS is Android" and
    "OS-is-Android-or-iOS". *)
Definition IsAndroid (ua : UserAgent) : bool := (OS ua =? Android)%string.
Definition IsIOS (ua : UserAgent) : bool := (OS ua =? IOS)%string.

(** Modelled from the spec: the function [parseVersion] is declared outside
    ua.go.  The spec's Version Parser turns a dotted/underscored version
    string into the list of its integer components; an empty or non-numeric
    input gives the empty list. *)
Fixpoint versionParts (s cur : string) : list string :=
  match s with
  | EmptyString => [cur]
  | String c s' =>
      if (Go.byte c =? 46) || (Go.byte c =? 95)
      then cur :: versionParts s' EmptyString
      else versionParts s' (cur ++ String c EmptyString)
  end.

Fixpoint decimalFrom (s : string) (acc : Z) : option Z :=
  match s with
  | EmptyString => Some acc
  | String c s' =>
      if (48 <=? Go.byte c) && (Go.byte c <=? 57)
      then decimalFrom s' (10 * acc + (Go.byte c - 48))
      else None
  end.

Definition decimal (s : string) : option Z :=
  match s with
  | EmptyString => None
  | _ => decimalFrom s 0
  end.

Fixpoint decimals (l : list string) : option (list Z) :=
  match l with
  | [] => Some []
  | s :: r => n <- decimal s ;; ns <- decimals r ;; Some (n :: ns)
  end.

Definition parseVersion (ver : string) : VersionNo_t :=
  match decimals (versionParts ver EmptyString) with
  | Some l => l
  | None => []
  end.

(** ** Go's [switch] statement

    The cases of an expression-less [switch] are tried in order; the body of
    the first case whose condition holds is run.  A body ends the statement
    ([Break], also the implicit end of a case) or passes control to the body
    of the next case without testing its condition ([Fallthrough]). *)

Inductive flow := Break | Fallthrough.

Section Switch.
Context {St Case : Type}.
Variable cond : Case -> St -> bool.
Variable body : Case -> St -> option (St * flow).

Fixpoint runBodies (cases : list Case) (st : St) : option St :=
  match cases with
  | [] => Some st
  | c :: rest =>
      ' (st', f) <- body c st ;;
      match f with
      | Break => Some st'
      | Fallthrough => runBodies rest st'
      end
  end.

Fixpoint switch (cases : list Case) (st : St) : option St :=
  match cases with
  | [] => Some st
  | c :: rest => if cond c st then runBodies cases st else switch rest st
  end.

(** The cases from the first one whose condition holds on; the empty list
    when no condition holds. *)
Fixpoint matching (cases : list Case) (st : St) : list Case :=
  match cases with
  | [] => []
  | c :: rest => if cond c st then cases else matching rest st
  end.

(** The case the [switch] selects, if any. *)
Definition selected (cases : list Case) (st : St) : option Case :=
  hd_error (matching cases st).
End Switch.

(** ** The OS lookup: the first [switch] of [Parse] *)

Inductive osCase :=
| OsAndroid | OsIPhone | OsIPad | OsWindowsNT | OsWindowsPhoneOS
| OsMacintosh | OsLinux | OsFreeBSD | OsCrOS | OsBlackBerry.

Definition osCases : list osCase :=
  [OsAndroid; OsIPhone; OsIPad; OsWindowsNT; OsWindowsPhoneOS;
   OsMacintosh; OsLinux; OsFreeBSD; OsCrOS; OsBlackBerry].

Definition osCond (c : osCase) (st : UserAgent * properties) : bool :=
  let tokens := snd st in
  match c with
  | OsAndroid => exists_ tokens "Android"
  | OsIPhone => exists_ tokens "iPhone"
  | OsIPad => exists_ tokens "iPad"
  | OsWindowsNT => exists_ tokens "Windows NT"
  | OsWindowsPhoneOS => exists_ tokens "Windows Phone OS"
  | OsMacintosh => exists_ tokens "Macintosh"
  | OsLinux => exists_ tokens "Linux"
  | OsFreeBSD => exists_ tokens "FreeBSD"
  | OsCrOS => exists_ tokens "CrOS"
  | OsBlackBerry => exists_ tokens "BlackBerry"
  end.

Definition osBody (c : osCase) (st : UserAgent * properties)
  : option ((UserAgent * properties) * flow) :=
  let (ua, tokens) := st in
  match c with
  | OsAndroid =>
      let ua := setOS ua Android in
      let (osIndex, v) := getIndexValue tokens Android in
      let ua := setOSVersion ua v in
      let ua := setTablet ua (Go.Contains (Go.ToLower (String_ ua)) "tablet") in
      ' (dev, tokens') <- findAndroidDevice tokens osIndex ;;
      Some ((setDevice ua dev, tokens'), Break)
  | OsIPhone =>
      let ua := setOS ua IOS in
      let ua := setOSVersion ua (findMacOSVersion tokens) in
      let ua := setDevice ua "iPhone" in
      Some ((setMobile ua true, tokens), Break)
  | OsIPad =>
      let ua := setOS ua IOS in
      let ua := setOSVersion ua (findMacOSVersion tokens) in
      let ua := setDevice ua "iPad" in
      Some ((setTablet ua true, tokens), Break)
  | OsWindowsNT =>
      let ua := setOS ua Windows in
      let ua := setOSVersion ua (get tokens "Windows NT") in
      Some ((setDesktop ua true, tokens), Break)
  | OsWindowsPhoneOS =>
      let ua := setOS ua WindowsPhone in
      let ua := setOSVersion ua (get tokens "Windows Phone OS") in
      Some ((setMobile ua true, tokens), Break)
  | OsMacintosh =>
      let ua := setOS ua MacOS in
      let ua := setOSVersion ua (findMacOSVersion tokens) in
      Some ((setDesktop ua true, tokens), Break)
  | OsLinux =>
      let ua := setOS ua Linux in
      let ua := setOSVersion ua (get tokens Linux) in
      Some ((setDesktop ua true, tokens), Break)
  | OsFreeBSD =>
      let ua := setOS ua FreeBSD in
      let ua := setOSVersion ua (get tokens FreeBSD) in
      Some ((setDesktop ua true, tokens), Break)
  | OsCrOS =>
      let ua := setOS ua ChromeOS in
      let ua := setOSVersion ua (get tokens "CrOS") in
      Some ((setDesktop ua true, tokens), Break)
  | OsBlackBerry =>
      let ua := setOS ua BlackBerry in
      let ua := setOSVersion ua (get tokens "BlackBerry") in
      Some ((setMobile ua true, tokens), Break)
  end.

Definition osLookup (st : UserAgent * properties) : option (UserAgent * properties) :=
  switch osCond osBody osCases st.

(** ** The agent lookup: the second [switch] of [Parse] *)

Inductive agentCase :=
| AgGooglebot | AgGoogleProber | AgApplebot | AgOperaMini | AgOPR | AgOPT
| AgOPiOS | AgCriOS | AgFxiOS | AgFirefox | AgVivaldi | AgMSIE | AgEdgiOS
| AgEdge | AgEdg | AgEdgA | AgBingbot | AgYandexBot | AgSamsungBrowser
| AgHeadlessChrome | AgAdsBot | AgYahooAdMonitoring | AgXiaoMi | AgFBAN
| AgFB_IAB | AgInstagram | AgBytedanceWebview | AgHuaweiBrowser
| AgBlackBerry | AgNetFront | AgChromeAndSafari | AgChrome | AgBraveChrome
| AgSafari | AgDefault.

(** The cases in the order of the source; [default] is the last one. *)
Definition agentCases : list agentCase :=
  [AgGooglebot; AgGoogleProber; AgApplebot; AgOperaMini; AgOPR; AgOPT;
   AgOPiOS; AgCriOS; AgFxiOS; AgFirefox; AgVivaldi; AgMSIE; AgEdgiOS;
   AgEdge; AgEdg; AgEdgA; AgBingbot; AgYandexBot; AgSamsungBrowser;
   AgHeadlessChrome; AgAdsBot; AgYahooAdMonitoring; AgXiaoMi; AgFBAN;
   AgFB_IAB; AgInstagram; AgBytedanceWebview; AgHuaweiBrowser;
   AgBlackBerry; AgNetFront; AgChromeAndSafari; AgChrome; AgBraveChrome;
   AgSafari; AgDefault].

Definition nonEmpty (s : string) : bool := negb (s =? EmptyString)%string.

Definition agentCond (tokens : properties) (c : agentCase) (ua : UserAgent) : bool :=
  match c with
  | AgGooglebot => exists_ tokens "Googlebot"
  | AgGoogleProber => existsAny tokens ["GoogleProber"; "GoogleProducer"]
  | AgApplebot => exists_ tokens "Applebot"
  | AgOperaMini => nonEmpty (get tokens "Opera Mini")
  | AgOPR => nonEmpty (get tokens "OPR")
  | AgOPT => nonEmpty (get tokens "OPT")
  | AgOPiOS => nonEmpty (get tokens "OPiOS")
  | AgCriOS => nonEmpty (get tokens "CriOS")
  | AgFxiOS => nonEmpty (get tokens "FxiOS")
  | AgFirefox => nonEmpty (get tokens "Firefox")
  | AgVivaldi => nonEmpty (get tokens "Vivaldi")
  | AgMSIE => exists_ tokens "MSIE"
  | AgEdgiOS => nonEmpty (get tokens "EdgiOS")
  | AgEdge => nonEmpty (get tokens "Edge")
  | AgEdg => nonEmpty (get tokens "Edg")
  | AgEdgA => nonEmpty (get tokens "EdgA")
  | AgBingbot => nonEmpty (get tokens "bingbot")
  | AgYandexBot => nonEmpty (get tokens "YandexBot")
  | AgSamsungBrowser => nonEmpty (get tokens "SamsungBrowser")
  | AgHeadlessChrome => nonEmpty (get tokens "HeadlessChrome")
  | AgAdsBot =>
      existsAny tokens ["AdsBot-Google-Mobile"; "Mediapartners-Google"; "AdsBot-Google"]
  | AgYahooAdMonitoring => exists_ tokens "Yahoo Ad monitoring"
  | AgXiaoMi => exists_ tokens "XiaoMi"
  | AgFBAN => exists_ tokens "FBAN"
  | AgFB_IAB => exists_ tokens "FB_IAB"
  | AgInstagram => startsWith tokens "Instagram"
  | AgBytedanceWebview => exists_ tokens "BytedanceWebview"
  | AgHuaweiBrowser => nonEmpty (get tokens "HuaweiBrowser")
  | AgBlackBerry => exists_ tokens "BlackBerry"
  | AgNetFront => exists_ tokens "NetFront"
  | AgChromeAndSafari => exists_ tokens Chrome && exists_ tokens Safari
  | AgChrome => exists_ tokens "Chrome"
  | AgBraveChrome => exists_ tokens "Brave Chrome"
  | AgSafari => exists_ tokens "Safari"
  | AgDefault => true
  end.

(** [tokens.existsAny("Mobile", "Mobile Safari")] *)
Definition mobileToken (tokens : properties) : bool :=
  existsAny tokens ["Mobile"; "Mobile Safari"].

(** [ua.Name = name; ua.Version = version; ua.Mobile = mobile] *)
Definition named (ua : UserAgent) (name version : string) (mobile : bool) : UserAgent :=
  setMobile (setVersion (setName ua name) version) mobile.

Definition agentBody (tokens : properties) (c : agentCase) (ua : UserAgent)
  : option (UserAgent * flow) :=
  match c with
  | AgGooglebot =>
      let ua := setName ua Googlebot in
      let ua := setVersion ua (get tokens Googlebot) in
      let ua := setBot ua true in
      Some (setMobile ua (mobileToken tokens), Break)
  | AgGoogleProber =>
      name <- findBestMatch tokens false ;;
      let ua := if nonEmpty name then setName ua name else ua in
      Some (setBot ua true, Break)
  | AgApplebot =>
      let ua := setName ua Applebot in
      let ua := setVersion ua (get tokens Applebot) in
      let ua := setBot ua true in
      let ua := setMobile ua (mobileToken tokens) in
      Some (setOS ua EmptyString, Break)
  | AgOperaMini =>
      Some (named ua OperaMini (get tokens OperaMini) true, Break)
  | AgOPR =>
      Some (named ua Opera (get tokens "OPR") (mobileToken tokens), Break)
  | AgOPT =>
      Some (named ua OperaTouch (get tokens "OPT") (mobileToken tokens), Break)
  | AgOPiOS =>
      Some (named ua Opera (get tokens "OPiOS") (mobileToken tokens), Break)
  | AgCriOS =>
      Some (named ua Chrome (get tokens "CriOS") (mobileToken tokens), Break)
  | AgFxiOS =>
      Some (named ua Firefox (get tokens "FxiOS") (mobileToken tokens), Break)
  | AgFirefox =>
      let ua := named ua Firefox (get tokens Firefox) (exists_ tokens "Mobile") in
      Some (setTablet ua (exists_ tokens "Tablet"), Break)
  | AgVivaldi =>
      Some (setVersion (setName ua Vivaldi) (get tokens Vivaldi), Break)
  | AgMSIE =>
      Some (setVersion (setName ua InternetExplorer) (get tokens "MSIE"), Break)
  | AgEdgiOS =>
      Some (named ua Edge (get tokens "EdgiOS") (mobileToken tokens), Break)
  | AgEdge =>
      Some (named ua Edge (get tokens "Edge") (mobileToken tokens), Break)
  | AgEdg =>
      Some (named ua Edge (get tokens "Edg") (mobileToken tokens), Break)
  | AgEdgA =>
      Some (named ua Edge (get tokens "EdgA") (mobileToken tokens), Break)
  | AgBingbot =>
      Some (named ua Bingbot (get tokens "bingbot") (mobileToken tokens), Break)
  | AgYandexBot =>
      Some (named ua "YandexBot" (get tokens "YandexBot") (mobileToken tokens), Break)
  | AgSamsungBrowser =>
      Some (named ua "Samsung Browser" (get tokens "SamsungBrowser")
              (mobileToken tokens), Break)
  | AgHeadlessChrome =>
      let ua := named ua HeadlessChrome (get tokens "HeadlessChrome")
                  (mobileToken tokens) in
      Some (setBot ua true, Break)
  | AgAdsBot =>
      let ua := setName ua GoogleAdsBot in
      let ua := setBot ua true in
      Some (setMobile ua (IsAndroid ua || IsIOS ua), Break)
  | AgYahooAdMonitoring =>
      let ua := setName ua "Yahoo Ad monitoring" in
      let ua := setBot ua true in
      Some (setMobile ua (IsAndroid ua || IsIOS ua), Break)
  | AgXiaoMi =>
      let miui := get tokens "XiaoMi" in
      if Go.HasPrefix miui "MiuiBrowser"
      then Some (named ua "Miui Browser" (Go.TrimPrefix miui "MiuiBrowser/") true, Break)
      else Some (ua, Break)
  | AgFBAN =>
      Some (setVersion (setName ua FacebookApp) (get tokens "FBAN"), Break)
  | AgFB_IAB =>
      Some (setVersion (setName ua FacebookApp) (get tokens "FBAV"), Break)
  | AgInstagram =>
      Some (setVersion (setName ua InstagramApp) (findInstagramVersion tokens), Break)
  | AgBytedanceWebview =>
      Some (setVersion (setName ua TiktokApp) (get tokens "app_version"), Break)
  | AgHuaweiBrowser =>
      Some (named ua "Huawei Browser" (get tokens "HuaweiBrowser")
              (mobileToken tokens), Break)
  | AgBlackBerry =>
      Some (setVersion (setName ua "BlackBerry") (get tokens "Version"), Break)
  | AgNetFront =>
      Some (named ua "NetFront" (get tokens "NetFront") true, Break)
  | AgChromeAndSafari =>
      name <- findBestMatch tokens true ;;
      if nonEmpty name
      then Some (setVersion (setName ua name) (get tokens name), Break)
      else Some (ua, Fallthrough)
  | AgChrome =>
      Some (named ua Chrome (get tokens "Chrome") (mobileToken tokens), Break)
  | AgBraveChrome =>
      Some (named ua Chrome (get tokens "Brave Chrome") (mobileToken tokens), Break)
  | AgSafari =>
      let ua := setName ua Safari in
      let v := get tokens "Version" in
      let ua := if nonEmpty v then setVersion ua v
                else setVersion ua (get tokens "Safari") in
      Some (setMobile ua (mobileToken tokens), Break)
  | AgDefault =>
      if (OS ua =? "Android")%string && nonEmpty (get tokens "Version") then
        Some (named ua "Android browser" (get tokens "Version") true, Break)
      else
        name <- findBestMatch tokens false ;;
        let ua := if nonEmpty name
                  then setVersion (setName ua name) (get tokens name)
                  else setName ua (String_ ua) in
        let ua := setBot ua (Go.Contains (Go.ToLower (Name ua)) "bot") in
        let ua := if negb (Mobile ua) then setMobile ua (mobileToken tokens)
                  else ua in
        Some (ua, Break)
  end.

Definition agentLookup (tokens : properties) (ua : UserAgent) : option UserAgent :=
  switch (agentCond tokens) (agentBody tokens) agentCases ua.

(** The agent case that fires. *)
Definition agentSelected (tokens : properties) (ua : UserAgent) : option agentCase :=
  selected (agentCond tokens) agentCases ua.

Scheme Equality for agentCase.

(** The cases that are tried before the case [c]. *)
Fixpoint casesUpTo (c : agentCase) (cases : list agentCase) : list agentCase :=
  match cases with
  | [] => []
  | d :: rest => if agentCase_beq d c then [] else d :: casesUpTo c rest
  end.

Definition casesBefore (c : agentCase) : list agentCase := casesUpTo c agentCases.

(** ** The post-pass of [Parse] *)

(** [if ua.IsAndroid() { ua.Mobile = true }] *)
Definition androidIsMobile (ua : UserAgent) : UserAgent :=
  if IsAndroid ua then setMobile ua true else ua.

(** [if ua.Tablet { ua.Mobile = false }] *)
Definition tabletIsNotMobile (ua : UserAgent) : UserAgent :=
  if Tablet ua then setMobile ua false else ua.

(** [if !ua.Bot { ua.Bot = ua.URL != "" }] (the URL is compared with the
    empty string) *)
Definition botIfURL (ua : UserAgent) : UserAgent :=
  if negb (Bot ua) then setBot ua (nonEmpty (URL ua)) else ua.

(** [if !ua.Bot { switch ua.Name { case Twitterbot, FacebookExternalHit: ua.Bot = true } }] *)
Definition botIfKnownName (ua : UserAgent) : UserAgent :=
  if negb (Bot ua) then
    if oneOf (Name ua) [Twitterbot; FacebookExternalHit] then setBot ua true
    else ua
  else ua.

Definition parseVersions (ua : UserAgent) : UserAgent :=
  let ua := setVersionNo ua (parseVersion (Version ua)) in
  setOSVersionNo ua (parseVersion (OSVersion ua)).

Definition postPass (ua : UserAgent) : UserAgent :=
  parseVersions (botIfKnownName (botIfURL (tabletIsNotMobile (androidIsMobile ua)))).

(** ** [Parse] *)

(** The loop that looks for a URL among the tokens, at index [i] with [rest]
    left to visit: the first token whose key is a URL is taken out of the
    store [all]. *)
Fixpoint extractURL (all rest : properties) (i : Z) (ua : UserAgent)
  : option (UserAgent * properties) :=
  match rest with
  | [] => Some (ua, all)
  | token :: rest' =>
      if Go.HasPrefix (Key token) "http://" || Go.HasPrefix (Key token) "https://"
      then
        l <- Go.lslice all 0 i ;;
        r <- Go.lslice all (i + 1) (Go.llen all) ;;
        Some (setURL ua (Key token), (l ++ r)%list)
      else extractURL all rest' (i + 1) ua
  end.

(** Is the key of [token] a URL, for the loop above? *)
Definition isURLToken (token : property) : bool :=
  Go.HasPrefix (Key token) "http://" || Go.HasPrefix (Key token) "https://".

(** The first part of [Parse]: the tokens of the input, less the URL. *)
Definition tokenize (userAgent : string) : option (UserAgent * properties) :=
  let ua := newUserAgent userAgent in
  tokens <- parse userAgent [] ;;
  extractURL tokens tokens 0 ua.

(** [Parse] up to the end of the OS lookup. *)
Definition classifyOS (userAgent : string) : option (UserAgent * properties) :=
  st <- tokenize userAgent ;;
  osLookup st.

(** [Parse] up to the end of the agent lookup. *)
Definition classifyAgent (userAgent : string) : option UserAgent :=
  ' (ua, tokens) <- classifyOS userAgent ;;
  agentLookup tokens ua.

Definition Parse (userAgent : string) : option UserAgent :=
  ua <- classifyAgent userAgent ;;
  Some (postPass ua).

(** The store [p] without its token at index [i]. *)
Definition withoutToken (p : properties) (i : Z) : properties :=
  (firstn (Z.to_nat i) p ++ skipn (Z.to_nat (i + 1)) p)%list.

(** ** The fields a stage of [Parse] leaves alone *)

(** The fields the agent lookup never writes. *)
Definition agentFrame (ua : UserAgent) :=
  (OSVersion ua, Device ua, URL ua, String_ ua, Desktop ua).

(** The fields the post-pass never writes. *)
Definition postFrame (ua : UserAgent) :=
  (Name ua, Version ua, OS ua, OSVersion ua, Device ua, URL ua, String_ ua,
   Tablet ua, Desktop ua).

(** The fields the OS lookup never writes. *)
Definition osFrame (st : UserAgent * properties) :=
  (URL (fst st), String_ (fst st), Name (fst st), Version (fst st), Bot (fst st)).

(** ** User agents used as examples *)

Definition uaChromeWindows : string :=
  "Mozilla/5.0 (Windows NT 10.0; Win64; x64) AppleWebKit/537.36 (KHTML, like Gecko) Chrome/91.0.4472.124 Safari/537.36".

Definition uaGooglebot : string :=
  "Mozilla/5.0 (compatible; Googlebot/2.1; +http://www.google.com/bot.html)".

Definition uaFirefoxAndroidTablet : string :=
  "Mozilla/5.0 (Android 4.4; Tablet; rv:41.0) Gecko/41.0 Firefox/41.0".

Definition uaGalaxyS9 : string :=
  "Mozilla/5.0 (Linux; Android 8.0.0; SM-G960F Build/R16NW) AppleWebKit/537.36 (KHTML, like Gecko) Chrome/62.0.3202.84 Mobile Safari/537.36".

Definition uaApplebotMac : string :=
  "Mozilla/5.0 (Macintosh; Intel Mac OS X 10_15_5) AppleWebKit/605.1.15 (KHTML, like Gecko) Version/13.1.1 Safari/605.1.15 (Applebot/0.1; +http://www.apple.com/go/applebot)".


Definition uaWhale : string :=
  "Mozilla/5.0 (Windows NT 10.0; Win64; x64) AppleWebKit/537.36 (KHTML, like Gecko) Chrome/91.0.4472.124 Safari/537.36 Whale/2.10.123.42".

Definition uaTwitterbotBrand : string :=
  "Mozilla/5.0 (Windows NT 10.0) AppleWebKit/537.36 (KHTML, like Gecko) Chrome/91.0.4472.124 Safari/537.36 Twitterbot/1.0".

(** The token stores of some of them, as the OS lookup finds them. *)

Definition whaleTokens : properties :=
  [ {| Key := "5.0"; Value := EmptyString |};
    {| Key := "Windows NT"; Value := "10.0" |};
    {| Key := "Win64"; Value := EmptyString |};
    {| Key := "x64"; Value := EmptyString |};
    {| Key := "AppleWebKit"; Value := "537.36" |};
    {| Key := "Chrome"; Value := "91.0.4472.124" |};
    {| Key := "Safari"; Value := "537.36" |};
    {| Key := "Whale"; Value := "2.10.123.42" |} ].

Definition applebotMacTokens : properties :=
  [ {| Key := "5.0"; Value := EmptyString |};
    {| Key := "Macintosh"; Value := EmptyString |};
    {| Key := "Intel Mac OS X 10_15_5"; Value := EmptyString |};
    {| Key := "AppleWebKit"; Value := "605.1.15" |};
    {| Key := "Version"; Value := "13.1.1" |};
    {| Key := "Safari"; Value := "605.1.15" |};
    {| Key := "Applebot"; Value := "0.1" |} ].

Definition galaxyS9Tokens : properties :=
  [ {| Key := "5.0"; Value := EmptyString |};
    {| Key := "Linux"; Value := EmptyString |};
    {| Key := "Android"; Value := "8.0.0" |};
    {| Key := "SM-G960F Build"; Value := "R16NW" |};
    {| Key := "AppleWebKit"; Value := "537.36" |};
    {| Key := "Chrome"; Value := "62.0.3202.84" |};
    {| Key := "Mobile Safari"; Value := "537.36" |} ].

(** ** Predicates used to state properties *)

(** Every byte of [s] satisfies [f]. *)
Fixpoint allBytes (f : ascii -> bool) (s : string) : bool :=
  match s with
  | EmptyString => true
  | String c s' => f c && allBytes f s'
  end.

(** An ASCII digit or a dot. *)
Definition isDigitOrDot (c : ascii) : bool :=
  ((48 <=? Go.byte c) && (Go.byte c <=? 57)) || (Go.byte c =? 46).

(** The labels [checkVer] splits a version off, and the Chrome OS labels. *)
Definition versionLabels : list string :=
  ["Linux"; "Windows NT"; "Windows Phone OS"; "MSIE"; "Android"].

Definition crosLabels : list string :=
  ["CrOS x86_64"; "CrOS aarch64"; "CrOS armv7l"].

(** The values [Parse] gives to the field [OS]. *)
Definition knownOS : list string :=
  [EmptyString; Android; IOS; Windows; WindowsPhone; MacOS; Linux; FreeBSD;
   ChromeOS; BlackBerry].

(** The bytes on which the tokenizer does something else than to append to a
    buffer: the brackets, the semicolon, the colon and the slash. *)
Definition isDelimiter (c : ascii) : bool :=
  existsb (Z.eqb (Go.byte c)) [41; 59; 40; 91; 93; 58; 47].

(** The values of [OS] that come with [Desktop]. *)
Definition desktopOS : list string := [Windows; MacOS; Linux; FreeBSD; ChromeOS].

(** The scanner [st] with the tokens [pre] put before its tokens. *)
Definition prependTokens (pre : properties) (st : scanner) : scanner :=
  {| buff := buff st; val := val st; slash := slash st; isURL := isURL st;
     parOpen := parOpen st; braOpen := braOpen st;
     toks := (pre ++ toks st)%list |}.

(** ** The best match with a value, in the words of the spec

    The search with a value required skips the generic tokens, the keys that
    begin with a digit and the tokens without a value, and returns the key of
    the first token that is left. *)

(** The key begins with an ASCII digit. *)
Definition startsWithDigit (key : string) : bool :=
  match key with
  | EmptyString => false
  | String c _ => (48 <=? Go.byte c) && (Go.byte c <=? 57)
  end.

(** A token the search with a value required does not skip. *)
Definition valuedCandidate (t : property) : bool :=
  negb (oneOf (Key t) genericTokens)
  && negb (startsWithDigit (Key t))
  && nonEmpty (Value t).

(** A user agent with two "Whale" tokens, the first one without a value. *)
Definition uaWhaleTwice : string :=
  "Mozilla/5.0 (Windows NT 10.0; Whale) AppleWebKit/537.36 (KHTML, like Gecko) Chrome/91.0.4472.124 Safari/537.36 Whale/2.10.123.42".

Definition whaleTwiceTokens : properties :=
  [ {| Key := "5.0"; Value := EmptyString |};
    {| Key := "Windows NT"; Value := "10.0" |};
    {| Key := "Whale"; Value := EmptyString |};
    {| Key := "AppleWebKit"; Value := "537.36" |};
    {| Key := "Chrome"; Value := "91.0.4472.124" |};
    {| Key := "Safari"; Value := "537.36" |};
    {| Key := "Whale"; Value := "2.10.123.42" |} ].

(** The token store of [uaChromeWindows]. *)
Definition chromeWindowsTokens : properties :=
  [ {| Key := "5.0"; Value := EmptyString |};
    {| Key := "Windows NT"; Value := "10.0" |};
    {| Key := "Win64"; Value := EmptyString |};
    {| Key := "x64"; Value := EmptyString |};
    {| Key := "AppleWebKit"; Value := "537.36" |};
    {| Key := "Chrome"; Value := "91.0.4472.124" |};
    {| Key := "Safari"; Value := "537.36" |} ].

(** * Properties *)

(** ** Indexing and slicing within bounds do not panic *)

Lemma get_in_range (s : string) :
  forall n, (n < String.length s)%nat -> exists c, String.get n s = Some c.
Proof.
  induction s as [|a s IH]; simpl; intros n Hn; [lia|].
  destruct n as [|n]; [now exists a|].
  apply IH; lia.
Qed.

Lemma index_in_range (s : string) (i : Z) :
  0 <= i < Go.len s -> exists c, Go.index s i = Some c.
Proof.
  intros Hi. unfold Go.index.
  replace ((0 <=? i) && (i <? Go.len s)) with true
    by (symmetry; apply andb_true_iff; split; [apply Z.leb_le | apply Z.ltb_lt]; lia).
  apply get_in_range. unfold Go.len in Hi. lia.
Qed.

Lemma slice_in_range (s : string) (lo hi : Z) :
  0 <= lo <= hi -> hi <= Go.len s ->
  Go.slice s lo hi = Some (substring (Z.to_nat lo) (Z.to_nat (hi - lo)) s).
Proof.
  intros H1 H2. unfold Go.slice.
  replace ((0 <=? lo) && (lo <=? hi) && (hi <=? Go.len s)) with true; [reflexivity|].
  symmetry. rewrite !andb_true_iff, !Z.leb_le. lia.
Qed.

Lemma substring_length (s : string) :
  forall n m, (n + m <= String.length s)%nat -> String.length (substring n m s) = m.
Proof.
  induction s as [|a s IH]; simpl; intros n m H.
  - destruct n, m; simpl in *; try lia; reflexivity.
  - destruct n as [|n].
    + destruct m as [|m]; simpl; [reflexivity|]. rewrite IH; [reflexivity | lia].
    + apply IH. lia.
Qed.

Lemma slice_len (s r : string) (lo hi : Z) :
  Go.slice s lo hi = Some r -> Go.len r = hi - lo /\ 0 <= lo <= hi /\ hi <= Go.len s.
Proof.
  unfold Go.slice.
  destruct ((0 <=? lo) && (lo <=? hi) && (hi <=? Go.len s)) eqn:E; [|discriminate].
  rewrite !andb_true_iff, !Z.leb_le in E. intros [= <-].
  unfold Go.len in *. rewrite substring_length by lia. lia.
Qed.

Lemma nth_error_in_range {A} (l : list A) :
  forall n, (n < List.length l)%nat -> exists x, nth_error l n = Some x.
Proof.
  induction l as [|a l IH]; simpl; intros n Hn; [lia|].
  destruct n as [|n]; [now exists a|].
  apply IH; lia.
Qed.

Lemma lindex_in_range {A} (l : list A) (i : Z) :
  0 <= i < Go.llen l -> exists x, Go.lindex l i = Some x.
Proof.
  intros Hi. unfold Go.lindex.
  replace ((0 <=? i) && (i <? Go.llen l)) with true
    by (symmetry; apply andb_true_iff; split; [apply Z.leb_le | apply Z.ltb_lt]; lia).
  apply nth_error_in_range. unfold Go.llen in Hi. lia.
Qed.

Lemma lslice_in_range {A} (l : list A) (lo hi : Z) :
  0 <= lo <= hi -> hi <= Go.llen l ->
  Go.lslice l lo hi = Some (firstn (Z.to_nat (hi - lo)) (skipn (Z.to_nat lo) l)).
Proof.
  intros H1 H2. unfold Go.lslice.
  replace ((0 <=? lo) && (lo <=? hi) && (hi <=? Go.llen l)) with true; [reflexivity|].
  symmetry. rewrite !andb_true_iff, !Z.leb_le. lia.
Qed.

Lemma lset_in_range {A} (l : list A) (i : Z) (x : A) :
  0 <= i < Go.llen l -> Go.lset l i x = Some (Go.replaceNth l (Z.to_nat i) x).
Proof.
  intros Hi. unfold Go.lset.
  replace ((0 <=? i) && (i <? Go.llen l)) with true; [reflexivity|].
  symmetry. apply andb_true_iff; split; [apply Z.leb_le | apply Z.ltb_lt]; lia.
Qed.

(** ** [bytes.LastIndex] of a space *)

Lemma lastIndexFrom_bounds (s : string) :
  forall i acc,
    Go.lastIndexFrom s " " i acc = acc \/
    i <= Go.lastIndexFrom s " " i acc < i + Go.len s.
Proof.
  induction s as [|a s IH]; intros i acc.
  - left. reflexivity.
  - cbn [Go.lastIndexFrom].
    assert (L : Go.len (String a s) = 1 + Go.len s) by (unfold Go.len; simpl String.length; lia).
    assert (P : 0 <= Go.len s) by (unfold Go.len; lia).
    destruct (String.prefix " " (String a s)) eqn:E.
    + destruct (IH (i + 1) i) as [->|H]; right; lia.
    + destruct (IH (i + 1) acc) as [->|H]; [now left | right; lia].
Qed.

Lemma LastIndex_bounds (s : string) :
  Go.LastIndex s " " = -1 \/ 0 <= Go.LastIndex s " " < Go.len s.
Proof.
  unfold Go.LastIndex.
  destruct (lastIndexFrom_bounds s 0 (-1)) as [H|H]; [now left | right; lia].
Qed.

(** ** The tokenizer does not panic *)

Lemma checkVer_total (s : string) : exists k v, checkVer s = Some (k, v).
Proof.
  unfold checkVer.
  destruct (Go.LastIndex s " " =? -1) eqn:E; [now eauto|].
  apply Z.eqb_neq in E.
  destruct (LastIndex_bounds s) as [H|H]; [contradiction|].
  set (i := Go.LastIndex s " ") in *.
  rewrite (slice_in_range s 0 i) by lia.
  pose proof (slice_len s _ 0 i (slice_in_range s 0 i ltac:(lia) ltac:(lia))) as [Hl _].
  set (si := substring (Z.to_nat 0) (Z.to_nat (i - 0)) s) in *.
  assert (Hi : Go.len si = i) by lia. clear Hl. clearbody si i.
  destruct (_ || _ || _ || _ || _).
  - rewrite (slice_in_range s (i + 1) (Go.len s)) by lia. eauto.
  - destruct ((si =? "CrOS x86_64")%string || (si =? "CrOS aarch64")%string
              || (si =? "CrOS armv7l")%string) eqn:C; [|eauto].
    rewrite !orb_true_iff, !String.eqb_eq in C.
    assert (J : Go.LastIndex si " " = 4 /\ 11 <= i).
    { destruct C as [[C|C]|C]; subst si; compute in Hi; split;
        try reflexivity; lia. }
    destruct J as [-> J].
    rewrite (slice_in_range s 0 4) by lia.
    rewrite (slice_in_range s (4 + 1) i) by lia. eauto.
Qed.

Lemma addToken_total (st : scanner) : exists st', addToken st = Some st'.
Proof.
  unfold addToken.
  destruct (negb (Go.len (buff st) =? 0)); [|eauto].
  destruct (negb (ignore _)); [|eauto].
  destruct (Go.len (val st) =? 0); [|eauto].
  destruct (checkVer_total (if isURL st then Go.TrimPrefix (Go.TrimSpace (buff st)) "+"
                            else Go.TrimSpace (buff st))) as (k & v & ->).
  eauto.
Qed.

Lemma scanByte_total (userAgent : string) (i : Z) (st : scanner) :
  0 <= i < Go.len userAgent -> exists st', scanByte userAgent i st = Some st'.
Proof.
  intros Hi. unfold scanByte.
  destruct (index_in_range userAgent i Hi) as [c ->].
  assert (N : forall f : ascii -> bool,
             exists b, andAlso (negb (i =? Go.len userAgent - 1))
                         (n <- Go.index userAgent (i + 1) ;; Some (f n)) = Some b).
  { intros f. destruct (i =? Go.len userAgent - 1) eqn:E; simpl; [eauto|].
    apply Z.eqb_neq in E.
    destruct (index_in_range userAgent (i + 1)) as [n ->]; [lia | eauto]. }
  repeat match goal with
         | |- context [addToken ?s] =>
             let st' := fresh "st" in destruct (addToken_total s) as [st' ->]
         end.
  repeat match goal with
         | |- exists _, (if ?b then _ else _) = _ => destruct b
         | |- exists _, Some _ = Some _ => eexists; reflexivity
         end.
  - destruct (N (fun n => negb (Go.byte n =? 32))) as [b ->]. destruct b; eauto.
  - destruct (N (fun n => (Go.byte n =? 47)
                          && (Go.HasSuffix (buff st) "http:"
                              || Go.HasSuffix (buff st) "https:"))) as [b ->].
    destruct b; [eauto|]. destruct (ignore (buff st)); eauto.
Qed.

Lemma scanLoop_total (userAgent : string) :
  forall n i st,
    0 <= i -> i + Z.of_nat n = Go.len userAgent ->
    exists st', scanLoop userAgent n i st = Some st'.
Proof.
  induction n as [|n IH]; intros i st H0 Hn; simpl; [eauto|].
  destruct (scanByte_total userAgent i st) as [st' ->]; [lia|].
  apply IH; lia.
Qed.

Lemma parse_total (userAgent : string) (tokens : properties) :
  exists tokens', parse userAgent tokens = Some tokens'.
Proof.
  unfold parse.
  edestruct (scanLoop_total userAgent) as [st ->]; [| unfold Go.len; simpl; reflexivity |]; [lia|].
  destruct (addToken_total st) as [st' ->]. eauto.
Qed.

(** ** The token store operations do not panic *)

Lemma extractURL_total (all : properties) :
  forall rest i ua,
    0 <= i -> i + Go.llen rest = Go.llen all ->
    exists r, extractURL all rest i ua = Some r.
Proof.
  induction rest as [|token rest IH]; intros i ua H0 Hi; simpl; [eauto|].
  assert (L : Go.llen (token :: rest) = 1 + Go.llen rest)
    by (unfold Go.llen; simpl List.length; lia).
  assert (P : 0 <= Go.llen rest) by (unfold Go.llen; lia).
  destruct (_ || _).
  - rewrite (lslice_in_range all 0 i) by lia.
    rewrite (lslice_in_range all (i + 1) (Go.llen all)) by lia. eauto.
  - apply IH; lia.
Qed.

Lemma getIndexValueFrom_bound (p : properties) (key : string) :
  forall i, 0 <= i -> -1 <= fst (getIndexValueFrom p i key).
Proof.
  induction p as [|prop p IH]; intros i Hi; simpl; [lia|].
  destruct (Key prop =? key)%string; simpl; [lia|].
  apply IH; lia.
Qed.

Lemma looksLikeLanguageTag_total (dev : string) :
  exists b, looksLikeLanguageTag dev = Some b.
Proof.
  unfold looksLikeLanguageTag.
  destruct (Go.len dev =? 2); [eauto|].
  destruct (Go.len dev =? 5) eqn:E; simpl; [|eauto].
  apply Z.eqb_eq in E.
  destruct (index_in_range dev 2) as [c ->]; [lia | eauto].
Qed.

Lemma findAndroidDevice_total (p : properties) (startIndex : Z) :
  -1 <= startIndex -> exists r, findAndroidDevice p startIndex = Some r.
Proof.
  intros Hs. unfold findAndroidDevice.
  destruct (Go.llen p >? startIndex + 1) eqn:E; [|eauto].
  apply Z.gtb_lt in E.
  destruct (lindex_in_range p (startIndex + 1)) as [tok ->]; [lia|].
  destruct (looksLikeLanguageTag_total (Key tok)) as [tag ->].
  destruct tag; [eauto|].
  destruct (oneOf (Key tok) notDeviceTokens); [eauto|].
  destruct (Go.Contains (Go.ToLower (Key tok)) "tablet").
  - rewrite lset_in_range by lia. eauto.
  - rewrite (lslice_in_range p 0 (startIndex + 1)) by lia.
    rewrite (lslice_in_range p (startIndex + 2) (Go.llen p)) by lia. eauto.
Qed.

Lemma startsWithNumber_total (key : string) :
  exists b, startsWithNumber key = Some b.
Proof.
  unfold startsWithNumber.
  destruct (Go.len key =? 0) eqn:E; simpl; [eauto|].
  apply Z.eqb_neq in E.
  assert (0 <= Go.len key) by (unfold Go.len; lia).
  destruct (index_in_range key 0) as [c ->]; [lia|].
  destruct (Go.byte c >=? 48); simpl; eauto.
Qed.

Lemma bestMatchPass_total (i : Z) (l : list property) :
  exists r, bestMatchPass i l = Some r.
Proof.
  induction l as [|prop l IH]; cbn [bestMatchPass]; [eauto|].
  destruct (oneOf (Key prop) genericTokens); [assumption|].
  destruct (startsWithNumber_total (Key prop)) as [num ->].
  destruct num; [assumption|].
  destruct (i =? 0); [|eauto].
  destruct (negb _); [eauto | assumption].
Qed.

Lemma bestMatchLoop_total (p : properties) :
  forall k i, exists name, bestMatchLoop k i p = Some name.
Proof.
  induction k as [|k IH]; intros i; simpl; [eauto|].
  destruct (bestMatchPass_total i p) as [[key|] ->]; [eauto | apply IH].
Qed.

Lemma findBestMatch_total (p : properties) (withVerOnly : bool) :
  exists name, findBestMatch p withVerOnly = Some name.
Proof. apply bestMatchLoop_total. Qed.

(** ** A [switch] whose bodies do not panic does not panic *)

Section SwitchTotal.
Context {St Case : Type}.
Variable cond : Case -> St -> bool.
Variable body : Case -> St -> option (St * flow).
Hypothesis body_total : forall c st, exists r, body c st = Some r.

Lemma runBodies_total (cases : list Case) :
  forall st, exists st', runBodies body cases st = Some st'.
Proof.
  induction cases as [|c rest IH]; intros st; simpl; [eauto|].
  destruct (body_total c st) as [[st' f] ->].
  destruct f; [eauto | apply IH].
Qed.

Lemma switch_total (cases : list Case) :
  forall st, exists st', switch cond body cases st = Some st'.
Proof.
  induction cases as [|c rest IH]; intros st; [simpl; eauto|].
  cbn [switch]. destruct (cond c st); [apply runBodies_total | apply IH].
Qed.
End SwitchTotal.

Lemma osBody_total (c : osCase) (st : UserAgent * properties) :
  exists r, osBody c st = Some r.
Proof.
  destruct st as [ua tokens]. destruct c; simpl; eauto.
  pose proof (getIndexValueFrom_bound tokens Android 0 ltac:(lia)) as B.
  unfold getIndexValue. destruct (getIndexValueFrom tokens 0 Android) as [osIndex v].
  simpl in B.
  destruct (findAndroidDevice_total tokens osIndex B) as [[dev tokens'] ->]. eauto.
Qed.

Lemma agentBody_total (tokens : properties) (c : agentCase) (ua : UserAgent) :
  exists r, agentBody tokens c ua = Some r.
Proof.
  destruct c; simpl; eauto.
  - destruct (findBestMatch_total tokens false) as [name ->]. eauto.
  - destruct (Go.HasPrefix _ _); eauto.
  - destruct (findBestMatch_total tokens true) as [name ->].
    destruct (nonEmpty name); eauto.
  - destruct (_ && _); [eauto|].
    destruct (findBestMatch_total tokens false) as [name ->]. eauto.
Qed.

Lemma osLookup_total (st : UserAgent * properties) : exists st', osLookup st = Some st'.
Proof. apply switch_total, osBody_total. Qed.

Lemma agentLookup_total (tokens : properties) (ua : UserAgent) :
  exists ua', agentLookup tokens ua = Some ua'.
Proof. apply switch_total, agentBody_total. Qed.

Lemma tokenize_total (userAgent : string) : exists st, tokenize userAgent = Some st.
Proof.
  unfold tokenize.
  destruct (parse_total userAgent []) as [tokens ->].
  apply extractURL_total; lia.
Qed.

Lemma classifyOS_total (userAgent : string) : exists st, classifyOS userAgent = Some st.
Proof.
  unfold classifyOS.
  destruct (tokenize_total userAgent) as [st ->]. apply osLookup_total.
Qed.

Lemma classifyAgent_total (userAgent : string) :
  exists ua, classifyAgent userAgent = Some ua.
Proof.
  unfold classifyAgent.
  destruct (classifyOS_total userAgent) as [[ua tokens] ->]. apply agentLookup_total.
Qed.

Lemma Parse_returns (userAgent : string) :
  exists ua, classifyAgent userAgent = Some ua /\ Parse userAgent = Some (postPass ua).
Proof.
  destruct (classifyAgent_total userAgent) as [ua H].
  exists ua. split; [assumption|]. unfold Parse. now rewrite H.
Qed.

(** ** What a [switch] leaves unchanged *)

Section SwitchFrame.
Context {St Case A : Type}.
Variable cond : Case -> St -> bool.
Variable body : Case -> St -> option (St * flow).
Variable proj : St -> A.
Hypothesis body_frame :
  forall c st st' f, body c st = Some (st', f) -> proj st' = proj st.

Lemma runBodies_frame (cases : list Case) :
  forall st st', runBodies body cases st = Some st' -> proj st' = proj st.
Proof.
  induction cases as [|c rest IH]; intros st st'; simpl.
  - now intros [= <-].
  - destruct (body c st) as [[st1 f]|] eqn:E; [|discriminate].
    apply body_frame in E. destruct f.
    + now intros [= <-].
    + intros H. apply IH in H. congruence.
Qed.

Lemma switch_matching (cases : list Case) (st : St) :
  switch cond body cases st = runBodies body (matching cond cases st) st.
Proof.
  induction cases as [|c rest IH]; [reflexivity|].
  cbn [switch matching]. now destruct (cond c st).
Qed.

Lemma switch_frame (cases : list Case) (st st' : St) :
  switch cond body cases st = Some st' -> proj st' = proj st.
Proof. rewrite switch_matching. apply runBodies_frame. Qed.
End SwitchFrame.

(** Case analysis on the result of a body. *)
Ltac run_body H :=
  repeat match type of H with
    | context [findBestMatch ?t ?b] =>
        let E := fresh "E" in
        destruct (findBestMatch t b) eqn:E; [|discriminate H]
    | context [if ?b then _ else _] =>
        let E := fresh "E" in destruct b eqn:E
    end;
  try discriminate H;
  try (injection H as <- <-).

Lemma agentBody_frame (tokens : properties) (c : agentCase) (ua ua' : UserAgent) (f : flow) :
  agentBody tokens c ua = Some (ua', f) -> agentFrame ua' = agentFrame ua.
Proof.
  intros H. destruct c; cbn [agentBody] in H; run_body H; reflexivity.
Qed.

Lemma agentLookup_frame (tokens : properties) (ua ua' : UserAgent) :
  agentLookup tokens ua = Some ua' -> agentFrame ua' = agentFrame ua.
Proof. apply switch_frame, agentBody_frame. Qed.

(** The bodies of the agent cases and the field [OS]. *)
Lemma agentBody_OS (tokens : properties) (c : agentCase) (ua ua' : UserAgent) (f : flow) :
  agentBody tokens c ua = Some (ua', f) ->
  OS ua' = if agentCase_beq c AgApplebot then EmptyString else OS ua.
Proof.
  intros H. destruct c; cbn [agentBody] in H; run_body H; reflexivity.
Qed.

(** A body that falls through is the body of "Chrome and Safari" after an
    empty best match. *)
Lemma agentBody_fallthrough (tokens : properties) (c : agentCase) (ua ua' : UserAgent) :
  agentBody tokens c ua = Some (ua', Fallthrough) ->
  c = AgChromeAndSafari /\ findBestMatch tokens true = Some EmptyString /\ ua' = ua.
Proof.
  intros H. destruct c; cbn [agentBody] in H;
    try (run_body H; fail).
  destruct (findBestMatch tokens true) as [name|] eqn:E; [|discriminate].
  destruct (nonEmpty name) eqn:N; [discriminate|].
  injection H as <-. unfold nonEmpty in N. apply negb_false_iff, String.eqb_eq in N.
  subst name. auto.
Qed.

(** [walk_cases on_case finish cases]: for each case in turn, [on_case]
    splits on its condition, [finish] proves the goal where it holds and the
    walk goes on where it does not; the goal of the last case is left to
    [finish]. *)
Ltac walk_cases on_case finish cases :=
  lazymatch eval hnf in cases with
  | [?c] => finish
  | ?c :: ?rest => on_case c; [ finish | walk_cases on_case finish rest ]
  end.

(** After "Chrome and Safari" comes the case "Chrome". *)
Lemma agent_matching_shape (tokens : properties) (ua : UserAgent) :
  exists c post,
    matching (agentCond tokens) agentCases ua = c :: post /\
    (c = AgChromeAndSafari -> hd_error post = Some AgChrome).
Proof.
  unfold agentCases. cbn [matching].
  change (agentCond tokens AgDefault ua) with true.
  walk_cases ltac:(fun c => destruct (agentCond tokens c ua))
    ltac:(do 2 eexists; split; [reflexivity|];
          intros; try discriminate; reflexivity)
    agentCases.
Qed.

(** The agent lookup runs the body of the selected case and, when that is
    "Chrome and Safari" and the best match is empty, the body of "Chrome". *)
Lemma agentLookup_inv (tokens : properties) (ua ua' : UserAgent) :
  agentLookup tokens ua = Some ua' ->
  exists c,
    agentSelected tokens ua = Some c /\
    (agentBody tokens c ua = Some (ua', Break) \/
     (c = AgChromeAndSafari /\ findBestMatch tokens true = Some EmptyString /\
      agentBody tokens AgChrome ua = Some (ua', Break))).
Proof.
  unfold agentLookup, agentSelected, selected. rewrite switch_matching.
  destruct (agent_matching_shape tokens ua) as (c & post & -> & S).
  cbn [runBodies hd_error]. intros H. exists c. split; [reflexivity|].
  destruct (agentBody tokens c ua) as [[ua1 f]|] eqn:E; [|discriminate].
  destruct f.
  - left. congruence.
  - right. apply agentBody_fallthrough in E. destruct E as (-> & F & ->).
    specialize (S eq_refl). destruct post as [|d post]; [discriminate|].
    injection S as ->. cbn [runBodies agentBody] in H. cbn [agentBody].
    injection H as <-. auto.
Qed.

Lemma matching_skip {St Case : Type} (cond : Case -> St -> bool)
      (pre rest : list Case) (st : St) :
  (forall c, In c pre -> cond c st = false) ->
  matching cond (pre ++ rest)%list st = matching cond rest st.
Proof.
  induction pre as [|c pre IH]; intros H; [reflexivity|].
  cbn [app matching]. rewrite (H c) by now left.
  apply IH. intros d Hd. apply H. now right.
Qed.

Lemma agentLookup_OS (tokens : properties) (ua ua' : UserAgent) :
  agentLookup tokens ua = Some ua' ->
  OS ua' = match agentSelected tokens ua with
           | Some AgApplebot => EmptyString
           | _ => OS ua
           end.
Proof.
  intros H. apply agentLookup_inv in H. destruct H as (c & -> & [H|(-> & _ & H)]).
  - apply agentBody_OS in H. rewrite H. now destruct c.
  - apply agentBody_OS in H. exact H.
Qed.

Lemma androidIsMobile_spec (ua : UserAgent) :
  postFrame (androidIsMobile ua) = postFrame ua /\
  Bot (androidIsMobile ua) = Bot ua.
Proof. unfold androidIsMobile. destruct (IsAndroid ua); split; reflexivity. Qed.

Lemma tabletIsNotMobile_spec (ua : UserAgent) :
  postFrame (tabletIsNotMobile ua) = postFrame ua /\
  Bot (tabletIsNotMobile ua) = Bot ua /\
  Tablet (tabletIsNotMobile ua) && Mobile (tabletIsNotMobile ua) = false.
Proof.
  unfold tabletIsNotMobile. destruct (Tablet ua) eqn:T; repeat split; cbn; rewrite ?T;
    reflexivity.
Qed.

Lemma botIfURL_spec (ua : UserAgent) :
  postFrame (botIfURL ua) = postFrame ua /\
  Mobile (botIfURL ua) = Mobile ua /\
  Bot (botIfURL ua) = Bot ua || nonEmpty (URL ua).
Proof.
  unfold botIfURL. destruct (Bot ua) eqn:B; repeat split; cbn; rewrite ?B; reflexivity.
Qed.

Lemma botIfKnownName_spec (ua : UserAgent) :
  postFrame (botIfKnownName ua) = postFrame ua /\
  Mobile (botIfKnownName ua) = Mobile ua /\
  Bot (botIfKnownName ua) = Bot ua || oneOf (Name ua) [Twitterbot; FacebookExternalHit].
Proof.
  unfold botIfKnownName.
  destruct (Bot ua) eqn:B; cbn [negb]; [repeat split; cbn; now rewrite ?B|].
  destruct (oneOf (Name ua) [Twitterbot; FacebookExternalHit]) eqn:N;
    repeat split; cbn; rewrite ?B; reflexivity.
Qed.

Lemma parseVersions_spec (ua : UserAgent) :
  postFrame (parseVersions ua) = postFrame ua /\
  Mobile (parseVersions ua) = Mobile ua /\
  Bot (parseVersions ua) = Bot ua.
Proof. repeat split. Qed.

Lemma postPass_frame (ua : UserAgent) : postFrame (postPass ua) = postFrame ua.
Proof.
  unfold postPass.
  rewrite (proj1 (parseVersions_spec _)), (proj1 (botIfKnownName_spec _)),
    (proj1 (botIfURL_spec _)), (proj1 (tabletIsNotMobile_spec _)).
  apply androidIsMobile_spec.
Qed.

Lemma postPass_fields (ua : UserAgent) :
  Name (postPass ua) = Name ua /\ Version (postPass ua) = Version ua /\
  OS (postPass ua) = OS ua /\ OSVersion (postPass ua) = OSVersion ua /\
  Device (postPass ua) = Device ua /\ URL (postPass ua) = URL ua.
Proof.
  pose proof (postPass_frame ua) as F. unfold postFrame in F.
  repeat split; congruence.
Qed.

(** ** The post-pass *)

Lemma postPass_tablet (ua : UserAgent) :
  Tablet (postPass ua) && Mobile (postPass ua) = false.
Proof.
  unfold postPass.
  set (u := tabletIsNotMobile (androidIsMobile ua)).
  destruct (tabletIsNotMobile_spec (androidIsMobile ua)) as (_ & _ & H). fold u in H.
  destruct (botIfURL_spec u) as (F1 & M1 & _).
  destruct (botIfKnownName_spec (botIfURL u)) as (F2 & M2 & _).
  destruct (parseVersions_spec (botIfKnownName (botIfURL u))) as (F3 & M3 & _).
  rewrite M3, M2, M1.
  assert (T : Tablet (parseVersions (botIfKnownName (botIfURL u))) = Tablet u).
  { rewrite F1 in F2. rewrite F2 in F3. unfold postFrame in F3.
    now injection F3. }
  now rewrite T.
Qed.

Lemma postPass_bot (ua : UserAgent) :
  Bot ua = false ->
  Bot (postPass ua) = nonEmpty (URL ua) || oneOf (Name ua) [Twitterbot; FacebookExternalHit].
Proof.
  intros B. unfold postPass.
  destruct (androidIsMobile_spec ua) as (F0 & B0).
  destruct (tabletIsNotMobile_spec (androidIsMobile ua)) as (F1 & B1 & _).
  set (u := tabletIsNotMobile (androidIsMobile ua)) in *.
  destruct (botIfURL_spec u) as (F2 & _ & B2).
  destruct (botIfKnownName_spec (botIfURL u)) as (_ & _ & B3).
  destruct (parseVersions_spec (botIfKnownName (botIfURL u))) as (_ & _ & B4).
  rewrite B4, B3, B2, B1, B0, B. cbn [orb].
  rewrite F0 in F1. rewrite F1 in F2. unfold postFrame in F1, F2.
  injection F1 as _ _ _ _ _ U _ _ _. injection F2 as N _ _ _ _ _ _ _ _.
  now rewrite U, N.
Qed.

(** ** The URL token *)

Lemma url_key_nonEmpty (token : property) :
  isURLToken token = true -> nonEmpty (Key token) = true.
Proof.
  unfold isURLToken, Go.HasPrefix. now destruct (Key token).
Qed.

Lemma extractURL_URL (all : properties) :
  forall rest i ua ua' tokens',
    extractURL all rest i ua = Some (ua', tokens') ->
    String_ ua' = String_ ua /\
    nonEmpty (URL ua') = existsb isURLToken rest || nonEmpty (URL ua).
Proof.
  induction rest as [|token rest IH]; intros i ua ua' tokens'; cbn [extractURL existsb].
  - intros [= <- _]. auto.
  - fold (isURLToken token). destruct (isURLToken token) eqn:E.
    + destruct (Go.lslice all 0 i); [|discriminate].
      destruct (Go.lslice all (i + 1) (Go.llen all)); [|discriminate].
      intros [= <- _]. cbn. split; [reflexivity|]. now apply url_key_nonEmpty.
    + apply IH.
Qed.

Lemma osBody_frame (c : osCase) (st st' : UserAgent * properties) (f : flow) :
  osBody c st = Some (st', f) -> osFrame st' = osFrame st.
Proof.
  destruct st as [ua tokens]. intros H.
  destruct c; cbn [osBody] in H; try (injection H as <- <-; reflexivity).
  destruct (getIndexValue tokens Android) as [osIndex v].
  destruct (findAndroidDevice tokens osIndex) as [[dev tokens']|]; [|discriminate].
  injection H as <- <-. reflexivity.
Qed.

Lemma osLookup_frame (st st' : UserAgent * properties) :
  osLookup st = Some st' -> osFrame st' = osFrame st.
Proof. apply switch_frame, osBody_frame. Qed.

(** The URL of the result is non-empty exactly when the tokenizer produced
    a URL token. *)
Lemma classifyAgent_URL (userAgent : string) (ua : UserAgent) :
  classifyAgent userAgent = Some ua ->
  exists tokens,
    parse userAgent [] = Some tokens /\
    nonEmpty (URL ua) = existsb isURLToken tokens.
Proof.
  unfold classifyAgent, classifyOS, tokenize.
  destruct (parse userAgent []) as [tokens|]; [|discriminate].
  destruct (extractURL tokens tokens 0 (newUserAgent userAgent)) as [[ua0 tokens0]|] eqn:X;
    [|discriminate].
  destruct (osLookup (ua0, tokens0)) as [[ua1 tokens1]|] eqn:O; [|discriminate].
  intros A. exists tokens. split; [reflexivity|].
  apply extractURL_URL in X. destruct X as [_ X].
  apply osLookup_frame in O. apply agentLookup_frame in A.
  unfold osFrame in O. unfold agentFrame in A. cbn [fst] in O.
  injection O as O _ _ _ _. injection A as _ _ A _ _.
  rewrite A, O, X. cbn. now rewrite orb_false_r.
Qed.

(** * The properties of the specification *)

(** C1.  For every input string the result of [Parse] never has [Tablet] and
    [Mobile] both true: where [Tablet] is true the post-pass has made
    [Mobile] false.  Earlier rules can set both: for a Firefox on an Android
    tablet both are true just before the tablet correction. *)
Theorem tablet_excludes_mobile :
  (forall userAgent,
     exists ua, Parse userAgent = Some ua /\
                Tablet ua && Mobile ua = false /\
                (if Tablet ua then Mobile ua = false else True)) /\
  (exists ua, classifyAgent uaFirefoxAndroidTablet = Some ua /\
              Tablet (androidIsMobile ua) = true /\
              Mobile (androidIsMobile ua) = true /\
              Mobile (tabletIsNotMobile (androidIsMobile ua)) = false).
Proof.
  split.
  - intros userAgent.
    destruct (Parse_returns userAgent) as (ua & _ & ->).
    exists (postPass ua). split; [reflexivity|].
    pose proof (postPass_tablet ua) as H. split; [exact H|].
    destruct (Tablet (postPass ua)); [exact H | exact I].
  - eexists. split; [vm_compute; reflexivity|]. repeat split.
Qed.

(** C2.  [Parse] returns a result for every input string, without a panic;
    for the empty string every field of the result is empty, false or zero,
    and [Name] is the empty string. *)
Theorem Parse_total_empty_input :
  (forall userAgent, exists ua, Parse userAgent = Some ua) /\
  Parse EmptyString =
    Some {| VersionNo := []; OSVersionNo := []; URL := EmptyString;
            String_ := EmptyString; Name := EmptyString; Version := EmptyString;
            OS := EmptyString; OSVersion := EmptyString; Device := EmptyString;
            Mobile := false; Tablet := false; Desktop := false; Bot := false |}.
Proof.
  split.
  - intros userAgent. destruct (Parse_returns userAgent) as (ua & _ & ->). eauto.
  - vm_compute. reflexivity.
Qed.

(** C3.  For a Chrome 91 on Windows 10, [Parse] returns OS "Windows",
    OSVersion "10.0", Name "Chrome", Version "91.0.4472.124", Desktop true,
    Mobile false and Bot false. *)
Theorem Parse_chrome_on_windows :
  exists ua,
    Parse "Mozilla/5.0 (Windows NT 10.0; Win64; x64) AppleWebKit/537.36 (KHTML, like Gecko) Chrome/91.0.4472.124 Safari/537.36"
      = Some ua /\
    OS ua = "Windows" /\ OSVersion ua = "10.0" /\
    Name ua = "Chrome" /\ Version ua = "91.0.4472.124" /\
    Desktop ua = true /\ Mobile ua = false /\ Bot ua = false.
Proof. eexists. split; [vm_compute; reflexivity|]. repeat split. Qed.

(** C7.  For the Googlebot user agent, [Parse] returns Name "Googlebot",
    Version "2.1", Bot true and the URL "http://www.google.com/bot.html":
    the tokenizer strips the leading "+" and the URL token is taken out of
    the store. *)
Theorem Parse_googlebot :
  exists ua,
    Parse "Mozilla/5.0 (compatible; Googlebot/2.1; +http://www.google.com/bot.html)"
      = Some ua /\
    Name ua = "Googlebot" /\ Version ua = "2.1" /\ Bot ua = true /\
    URL ua = "http://www.google.com/bot.html" /\
    parse "Mozilla/5.0 (compatible; Googlebot/2.1; +http://www.google.com/bot.html)" []
      = Some [ {| Key := "5.0"; Value := EmptyString |};
               {| Key := "Googlebot"; Value := "2.1" |};
               {| Key := "http://www.google.com/bot.html"; Value := EmptyString |} ] /\
    classifyOS "Mozilla/5.0 (compatible; Googlebot/2.1; +http://www.google.com/bot.html)"
      = Some (setURL (newUserAgent uaGooglebot) "http://www.google.com/bot.html",
              [ {| Key := "5.0"; Value := EmptyString |};
                {| Key := "Googlebot"; Value := "2.1" |} ]).
Proof.
  eexists. split; [vm_compute; reflexivity|]. repeat split.
Qed.

(** C8.  When the agent lookup leaves [Bot] false, the post-pass makes it
    true if the tokenizer produced a URL token (the URL of the result is
    then non-empty); if not, [Bot] is true exactly when the final [Name] is
    "Twitterbot" or "facebookexternalhit", and false otherwise. *)
Theorem post_pass_bot (userAgent : string) (ua : UserAgent) :
  classifyAgent userAgent = Some ua ->
  Bot ua = false ->
  exists res tokens,
    Parse userAgent = Some res /\
    parse userAgent [] = Some tokens /\
    Name res = Name ua /\
    nonEmpty (URL res) = existsb isURLToken tokens /\
    Bot res = existsb isURLToken tokens
              || ((Name res =? "Twitterbot")%string
                  || (Name res =? "facebookexternalhit")%string).
Proof.
  intros A B.
  destruct (classifyAgent_URL userAgent ua A) as (tokens & P & U).
  exists (postPass ua), tokens.
  destruct (postPass_fields ua) as (FN & _ & _ & _ & _ & FU).
  repeat split.
  - unfold Parse. now rewrite A.
  - exact P.
  - exact FN.
  - now rewrite FU.
  - rewrite (postPass_bot ua B), FN, U. cbn [oneOf]. now rewrite orb_false_r.
Qed.

Lemma post_pass_bot_witness :
  exists res tokens,
    Parse uaTwitterbotBrand = Some res /\
    parse uaTwitterbotBrand [] = Some tokens /\
    Name res = "Twitterbot" /\
    nonEmpty (URL res) = existsb isURLToken tokens /\
    Bot res = existsb isURLToken tokens
              || ((Name res =? "Twitterbot")%string
                  || (Name res =? "facebookexternalhit")%string).
Proof.
  refine (post_pass_bot uaTwitterbotBrand
            (setVersion (setName (setDesktop (setOSVersion
               (setOS (newUserAgent uaTwitterbotBrand) Windows) "10.0") true)
               "Twitterbot") "1.0") _ _).
  - vm_compute. reflexivity.
  - reflexivity.
Defined.

(** C6.  The OS set by the OS lookup is the OS of the result, whatever agent
    case fires, except for the case "Applebot", after which the OS is the
    empty string.  The same holds of the body of every single agent case. *)
Theorem agent_lookup_keeps_OS :
  (forall userAgent,
     exists ua tokens res,
       classifyOS userAgent = Some (ua, tokens) /\
       Parse userAgent = Some res /\
       OS res = match agentSelected tokens ua with
                | Some AgApplebot => EmptyString
                | _ => OS ua
                end) /\
  (forall tokens c ua ua' f,
     agentBody tokens c ua = Some (ua', f) ->
     OS ua' = match c with AgApplebot => EmptyString | _ => OS ua end).
Proof.
  split.
  - intros userAgent.
    destruct (classifyOS_total userAgent) as [[ua tokens] C].
    destruct (agentLookup_total tokens ua) as [ua' A].
    exists ua, tokens, (postPass ua'). split; [exact C|]. split.
    + unfold Parse, classifyAgent. now rewrite C, A.
    + destruct (postPass_fields ua') as (_ & _ & -> & _).
      now apply agentLookup_OS.
  - intros tokens c ua ua' f H. apply agentBody_OS in H. rewrite H. now destruct c.
Qed.

Lemma agent_lookup_keeps_OS_witness :
  OS (named (setOS (newUserAgent uaChromeWindows) Windows) Chrome
        (get whaleTokens "Chrome") (mobileToken whaleTokens)) = "Windows" /\
  OS (setOS (setMobile (setBot (setVersion (setName
        (setOS (newUserAgent uaApplebotMac) MacOS) Applebot)
        (get applebotMacTokens Applebot)) true) (mobileToken applebotMacTokens))
        EmptyString) = EmptyString.
Proof.
  split.
  - exact (proj2 agent_lookup_keeps_OS whaleTokens AgChrome
             (setOS (newUserAgent uaChromeWindows) Windows) _ Break eq_refl).
  - exact (proj2 agent_lookup_keeps_OS applebotMacTokens AgApplebot
             (setOS (newUserAgent uaApplebotMac) MacOS) _ Break eq_refl).
Defined.

(** C10.  When the case "Applebot" fires, the result has the empty string as
    OS and the OSVersion that the OS lookup assigned: the exception clears
    the name of the OS and not its version.  (With a "Macintosh" token the
    result keeps the macOS version.) *)
Theorem applebot_keeps_OSVersion (userAgent : string) (ua : UserAgent)
        (tokens : properties) :
  classifyOS userAgent = Some (ua, tokens) ->
  agentSelected tokens ua = Some AgApplebot ->
  exists res,
    Parse userAgent = Some res /\
    Name res = Applebot /\
    OS res = EmptyString /\
    OSVersion res = OSVersion ua.
Proof.
  intros C S.
  destruct (agentLookup_total tokens ua) as [ua' A].
  exists (postPass ua').
  destruct (postPass_fields ua') as (-> & _ & -> & -> & _).
  split; [unfold Parse, classifyAgent; now rewrite C, A|].
  pose proof (agentLookup_OS _ _ _ A) as O. rewrite S in O.
  pose proof (agentLookup_frame _ _ _ A) as F. unfold agentFrame in F.
  apply agentLookup_inv in A. destruct A as (c & Sc & [B|(-> & _)]);
    rewrite S in Sc; [|discriminate].
  injection Sc as <-. cbn [agentBody] in B. injection B as <-.
  split; [reflexivity|]. split; [exact O | congruence].
Qed.

Lemma applebot_keeps_OSVersion_witness :
  exists res,
    Parse uaApplebotMac = Some res /\
    Name res = "Applebot" /\
    OS res = EmptyString /\
    OSVersion res = "10.15.5".
Proof.
  refine (applebot_keeps_OSVersion uaApplebotMac
            (setDesktop (setOSVersion (setOS
               (setURL (newUserAgent uaApplebotMac) "http://www.apple.com/go/applebot")
               MacOS) "10.15.5") true)
            applebotMacTokens _ _).
  - vm_compute. reflexivity.
  - vm_compute. reflexivity.
Defined.

(** ** The case "Chrome and Safari" *)

(** The result of [Parse] when the case "Chrome and Safari" is reached, in
    terms of what [findBestMatch] returns. *)
Lemma chrome_and_safari_cases (userAgent : string) (ua : UserAgent) (tokens : properties) :
  classifyOS userAgent = Some (ua, tokens) ->
  (forall c, In c (casesBefore AgChromeAndSafari) -> agentCond tokens c ua = false) ->
  exists_ tokens "Chrome" = true ->
  exists_ tokens "Safari" = true ->
  exists name res,
    findBestMatch tokens true = Some name /\
    Parse userAgent = Some res /\
    (if nonEmpty name
     then Name res = name /\ Version res = get tokens name
     else Name res = "Chrome" /\ Version res = get tokens "Chrome").
Proof.
  intros C Early HC HS.
  assert (S : agentSelected tokens ua = Some AgChromeAndSafari).
  { unfold agentSelected, selected.
    change agentCases with
      (casesBefore AgChromeAndSafari
         ++ [AgChromeAndSafari; AgChrome; AgBraveChrome; AgSafari; AgDefault])%list.
    rewrite matching_skip by exact Early.
    cbn [matching agentCond]. unfold Chrome, Safari. now rewrite HC, HS. }
  destruct (agentLookup_total tokens ua) as [ua' A].
  assert (P : Parse userAgent = Some (postPass ua'))
    by (unfold Parse, classifyAgent; now rewrite C, A).
  destruct (postPass_fields ua') as (N & V & _).
  apply agentLookup_inv in A. destruct A as (c & Sc & B).
  rewrite S in Sc. injection Sc as <-.
  destruct B as [B|(_ & F & B)].
  - cbn [agentBody] in B.
    destruct (findBestMatch tokens true) as [name|]; [|discriminate].
    exists name, (postPass ua'). split; [reflexivity|]. split; [exact P|].
    destruct (nonEmpty name); [|discriminate].
    injection B as <-. rewrite N, V. split; reflexivity.
  - exists EmptyString, (postPass ua'). split; [exact F|]. split; [exact P|].
    cbn [agentBody] in B. injection B as <-. rewrite N, V. split; reflexivity.
Qed.

(** [startsWithNumber] never fails: it tells whether the key begins with a
    digit. *)
Lemma startsWithNumber_digit (key : string) :
  startsWithNumber key = Some (startsWithDigit key).
Proof.
  destruct key as [|c r]; [reflexivity|].
  assert (I : Go.index (String c r) 0 = Some c).
  { unfold Go.index.
    replace ((0 <=? 0) && (0 <? Go.len (String c r))) with true; [reflexivity|].
    symmetry. apply andb_true_iff. split; [reflexivity|].
    apply Z.ltb_lt. unfold Go.len. cbn [String.length]. lia. }
  unfold startsWithNumber.
  replace (Go.len (String c r) =? 0) with false
    by (symmetry; apply Z.eqb_neq; unfold Go.len; cbn [String.length]; lia).
  cbn [negb andAlso]. rewrite I. cbn [startsWithDigit].
  rewrite Z.geb_leb. now destruct (48 <=? Go.byte c).
Qed.

(** The first pass of [findBestMatch] goes past a token that is no
    candidate and stops at a candidate. *)
Lemma bestMatchPass_skip (t : property) (l : list property) :
  valuedCandidate t = false -> bestMatchPass 0 (t :: l) = bestMatchPass 0 l.
Proof.
  unfold valuedCandidate, nonEmpty. intros H.
  cbn [bestMatchPass]. rewrite startsWithNumber_digit.
  destruct (oneOf (Key t) genericTokens); [reflexivity|].
  destruct (startsWithDigit (Key t)); [reflexivity|].
  cbn [negb andb] in H. change (0 =? 0) with true. cbv iota. now rewrite H.
Qed.

Lemma bestMatchPass_take (t : property) (l : list property) :
  valuedCandidate t = true -> bestMatchPass 0 (t :: l) = Some (Some (Key t)).
Proof.
  unfold valuedCandidate, nonEmpty. intros H.
  cbn [bestMatchPass]. rewrite startsWithNumber_digit.
  destruct (oneOf (Key t) genericTokens); [discriminate|].
  destruct (startsWithDigit (Key t)); [discriminate|].
  cbn [negb andb] in H. change (0 =? 0) with true. cbv iota. now rewrite H.
Qed.

Lemma findBestMatch_first (pre post : list property) (tok : property) :
  (forall t, In t pre -> valuedCandidate t = false) ->
  valuedCandidate tok = true ->
  findBestMatch (pre ++ tok :: post)%list true = Some (Key tok).
Proof.
  intros Hpre Htok.
  assert (B : bestMatchPass 0 (pre ++ tok :: post)%list = Some (Some (Key tok))).
  { induction pre as [|t pre IH]; cbn [app].
    - now apply bestMatchPass_take.
    - rewrite bestMatchPass_skip by (apply Hpre; now left).
      apply IH. intros u Hu. apply Hpre. now right. }
  unfold findBestMatch. cbv zeta iota. change (Z.to_nat 1) with 1%nat.
  cbn [bestMatchLoop]. now rewrite B.
Qed.

Lemma findBestMatch_none (l : list property) :
  (forall t, In t l -> valuedCandidate t = false) ->
  findBestMatch l true = Some EmptyString.
Proof.
  intros H.
  assert (B : bestMatchPass 0 l = Some None).
  { induction l as [|t l IH]; [reflexivity|].
    rewrite bestMatchPass_skip by (apply H; now left).
    apply IH. intros u Hu. apply H. now right. }
  unfold findBestMatch. cbv zeta iota. change (Z.to_nat 1) with 1%nat.
  cbn [bestMatchLoop]. now rewrite B.
Qed.

(** [get] looks for the key in the tokens in front first. *)
Lemma get_app (pre l : properties) (key : string) :
  get (pre ++ l)%list key = if exists_ pre key then get pre key else get l key.
Proof.
  induction pre as [|t pre IH]; cbn [app get exists_]; [reflexivity|].
  now destruct (Key t =? key)%string.
Qed.

Lemma get_blank (pre : properties) (key : string) :
  (forall t, In t pre -> Key t = key -> Value t = EmptyString) ->
  get pre key = EmptyString.
Proof.
  induction pre as [|t pre IH]; intros H; cbn [get]; [reflexivity|].
  destruct (Key t =? key)%string eqn:E.
  - apply String.eqb_eq in E. apply H; [now left | exact E].
  - apply IH. intros u Hu. apply H. now right.
Qed.

(** A token in front of the first candidate that has the candidate's key has
    no value. *)
Lemma same_key_no_value (t tok : property) :
  valuedCandidate t = false -> valuedCandidate tok = true ->
  Key t = Key tok -> Value t = EmptyString.
Proof.
  unfold valuedCandidate, nonEmpty. intros Ht Htok E. rewrite E in Ht.
  apply andb_true_iff in Htok. destruct Htok as [K _]. rewrite K in Ht.
  cbn [andb] in Ht. apply negb_false_iff in Ht. now apply String.eqb_eq in Ht.
Qed.

(** C4 (amended).  When no earlier agent case matches and the store holds a
    "Chrome" and a "Safari" token, the search with a value required decides:
    if the first token that is not generic, does not begin with a digit and
    has a value, has a non-empty key, the Name is that key and the Version is
    [get] of that key, the value of the first token with that key: the value
    of the token found when no token in front of it has the same key, and
    the empty string when one has.  If there is no such token, or its key is
    empty, control falls through to the case "Chrome": the Name is "Chrome"
    and the Version the value of the "Chrome" token.  No other body of the
    agent lookup falls through. *)
Theorem chrome_and_safari_rule :
  (forall userAgent ua tokens,
     classifyOS userAgent = Some (ua, tokens) ->
     (forall c, In c (casesBefore AgChromeAndSafari) -> agentCond tokens c ua = false) ->
     exists_ tokens "Chrome" = true ->
     exists_ tokens "Safari" = true ->
     exists res,
       Parse userAgent = Some res /\
       (forall pre tok post,
          tokens = (pre ++ tok :: post)%list ->
          (forall t, In t pre -> valuedCandidate t = false) ->
          valuedCandidate tok = true ->
          if nonEmpty (Key tok)
          then Name res = Key tok /\
               Version res = get tokens (Key tok) /\
               Version res = (if exists_ pre (Key tok) then EmptyString else Value tok)
          else Name res = "Chrome" /\ Version res = get tokens "Chrome") /\
       ((forall t, In t tokens -> valuedCandidate t = false) ->
        Name res = "Chrome" /\ Version res = get tokens "Chrome")) /\
  (forall tokens c ua ua',
     agentBody tokens c ua = Some (ua', Fallthrough) ->
     c = AgChromeAndSafari /\ findBestMatch tokens true = Some EmptyString).
Proof.
  split.
  - intros userAgent ua tokens C Early HC HS.
    destruct (chrome_and_safari_cases userAgent ua tokens C Early HC HS)
      as (name & res & F & P & R).
    exists res. split; [exact P|]. split.
    + intros pre tok post E Hpre Htok. subst tokens.
      rewrite (findBestMatch_first pre post tok Hpre Htok) in F.
      injection F as <-.
      destruct (nonEmpty (Key tok)); [|exact R].
      destruct R as [RN RV]. split; [exact RN|]. split; [exact RV|].
      rewrite RV, get_app.
      destruct (exists_ pre (Key tok)).
      * apply get_blank. intros t Ht K.
        apply (same_key_no_value t tok); [now apply Hpre | exact Htok | exact K].
      * cbn [get]. now rewrite String.eqb_refl.
    + intros Hall. rewrite (findBestMatch_none tokens Hall) in F.
      injection F as <-. exact R.
  - intros tokens c ua ua' H. apply agentBody_fallthrough in H. tauto.
Qed.

Lemma chrome_and_safari_rule_witness :
  (exists res,
     Parse uaWhale = Some res /\ Name res = "Whale" /\ Version res = "2.10.123.42") /\
  (exists res,
     Parse uaChromeWindows = Some res /\
     Name res = "Chrome" /\ Version res = "91.0.4472.124").
Proof.
  split.
  - destruct (proj1 chrome_and_safari_rule uaWhale
                (setDesktop (setOSVersion (setOS (newUserAgent uaWhale) Windows) "10.0") true)
                whaleTokens) as (res & P & First & _).
    + vm_compute. reflexivity.
    + intros c H. vm_compute in H.
      repeat (destruct H as [<-|H]; [vm_compute; reflexivity|]). contradiction.
    + vm_compute. reflexivity.
    + vm_compute. reflexivity.
    + exists res. split; [exact P|].
      pose proof (First (firstn 7 whaleTokens)
                    {| Key := "Whale"; Value := "2.10.123.42" |} [] eq_refl) as F.
      cbn [Key Value] in F.
      assert (Pre : forall t, In t (firstn 7 whaleTokens) -> valuedCandidate t = false).
      { intros t H. vm_compute in H.
        repeat (destruct H as [<-|H]; [vm_compute; reflexivity|]). contradiction. }
      destruct (F Pre eq_refl) as (N & _ & V). split; [exact N | exact V].
  - destruct (proj1 chrome_and_safari_rule uaChromeWindows
                (setDesktop (setOSVersion (setOS (newUserAgent uaChromeWindows) Windows)
                               "10.0") true)
                chromeWindowsTokens) as (res & P & _ & Nothing).
    + vm_compute. reflexivity.
    + intros c H. vm_compute in H.
      repeat (destruct H as [<-|H]; [vm_compute; reflexivity|]). contradiction.
    + vm_compute. reflexivity.
    + vm_compute. reflexivity.
    + exists res. split; [exact P|]. apply Nothing.
      intros t H. vm_compute in H.
      repeat (destruct H as [<-|H]; [vm_compute; reflexivity|]). contradiction.
Defined.

(** The claim as stated fails when a token without a value carries the key
    of the token found: the case "Chrome and Safari" is the one that fires,
    the first candidate of the search is the token "Whale" with the value
    "2.10.123.42", the Name is "Whale", and the Version is empty. *)
Lemma chrome_and_safari_duplicate_key :
  exists ua res,
    classifyOS uaWhaleTwice = Some (ua, whaleTwiceTokens) /\
    agentSelected whaleTwiceTokens ua = Some AgChromeAndSafari /\
    find valuedCandidate whaleTwiceTokens
      = Some {| Key := "Whale"; Value := "2.10.123.42" |} /\
    findBestMatch whaleTwiceTokens true = Some "Whale" /\
    Parse uaWhaleTwice = Some res /\
    Name res = "Whale" /\
    Version res = EmptyString.
Proof.
  do 2 eexists. split; [vm_compute; reflexivity|].
  split; [vm_compute; reflexivity|]. split; [vm_compute; reflexivity|].
  split; [vm_compute; reflexivity|]. split; [vm_compute; reflexivity|].
  split; reflexivity.
Qed.

(** ** The device token of an Android user agent *)

Lemma lindex_bounds {A} (l : list A) (i : Z) (x : A) :
  Go.lindex l i = Some x -> 0 <= i < Go.llen l.
Proof.
  unfold Go.lindex.
  destruct ((0 <=? i) && (i <? Go.llen l)) eqn:E; [|discriminate].
  apply andb_true_iff in E. destruct E as [E1 E2].
  apply Z.leb_le in E1. apply Z.ltb_lt in E2. intros _. lia.
Qed.

Lemma lslice_prefix {A} (l : list A) (n : Z) :
  0 <= n <= Go.llen l -> Go.lslice l 0 n = Some (firstn (Z.to_nat n) l).
Proof.
  intros H. rewrite lslice_in_range by lia.
  now rewrite Z.sub_0_r.
Qed.

Lemma lslice_suffix {A} (l : list A) (n : Z) :
  0 <= n <= Go.llen l -> Go.lslice l n (Go.llen l) = Some (skipn (Z.to_nat n) l).
Proof.
  intros H. rewrite lslice_in_range by lia.
  rewrite firstn_all2; [reflexivity|].
  rewrite length_skipn. unfold Go.llen. lia.
Qed.

(** A device token that is no language tag, no known word and no tablet is
    taken out of the store; its key, less "Build", is the device. *)
Lemma findAndroidDevice_device (p : properties) (i : Z) (tok : property) :
  Go.lindex p (i + 1) = Some tok ->
  looksLikeLanguageTag (Key tok) = Some false ->
  oneOf (Key tok) notDeviceTokens = false ->
  Go.Contains (Go.ToLower (Key tok)) "tablet" = false ->
  findAndroidDevice p i =
    Some (Go.TrimSpace (Go.TrimSuffix (Key tok) "Build"), withoutToken p (i + 1)).
Proof.
  intros L T V B. pose proof (lindex_bounds _ _ _ L) as R.
  unfold findAndroidDevice.
  replace (Go.llen p >? i + 1) with true by (symmetry; apply Z.gtb_lt; lia).
  rewrite L, T, V, B.
  rewrite lslice_prefix by lia.
  replace (i + 2) with (i + 1 + 1) by lia.
  rewrite lslice_suffix by lia. reflexivity.
Qed.

(** [findBestMatch] returns the key of a token of the store, or nothing. *)
Lemma bestMatchPass_key (i : Z) (l : list property) (k : string) :
  bestMatchPass i l = Some (Some k) -> exists t, In t l /\ Key t = k.
Proof.
  induction l as [|prop l IH]; cbn [bestMatchPass]; [discriminate|].
  assert (R : bestMatchPass i l = Some (Some k) ->
              exists t, In t (prop :: l) /\ Key t = k).
  { intros H. destruct (IH H) as (t & Ht & Hk). exists t. split; [now right | exact Hk]. }
  assert (Here : Some (Some (Key prop)) = Some (Some k) ->
                 exists t, In t (prop :: l) /\ Key t = k).
  { intros [= <-]. exists prop. split; [now left | reflexivity]. }
  destruct (oneOf (Key prop) genericTokens); [exact R|].
  destruct (startsWithNumber (Key prop)) as [[|]|]; [exact R | | discriminate].
  destruct (i =? 0); [|exact Here].
  destruct (negb _); [exact Here | exact R].
Qed.

Lemma findBestMatch_key (p : properties) (withVerOnly : bool) (name : string) :
  findBestMatch p withVerOnly = Some name ->
  name = EmptyString \/ exists t, In t p /\ Key t = name.
Proof.
  unfold findBestMatch. generalize (Z.to_nat (if withVerOnly then 1 else 2)), 0.
  intros k. induction k as [|k IH]; intros i; cbn [bestMatchLoop].
  - intros [= <-]. now left.
  - destruct (bestMatchPass i p) as [[key|]|] eqn:E; [| apply IH | discriminate].
    intros [= <-]. right. now apply bestMatchPass_key in E.
Qed.

(** C9.  When the Android case of the OS lookup fires and the token right
    after the "Android" token is a device token (its key is no language tag
    of 2 or 5 bytes, no word of the fixed vocabulary and does not contain
    "tablet"), the Device of the result is that key with the suffix "Build"
    and the surrounding white space trimmed, and the token is taken out of
    the store: the agent lookup works on the store without it, and whatever
    [findBestMatch] returns there is the key of a token that is left. *)
Theorem android_device_token_consumed (userAgent : string) (ua : UserAgent)
        (tokens : properties) (tok : property) :
  tokenize userAgent = Some (ua, tokens) ->
  exists_ tokens "Android" = true ->
  Go.lindex tokens (fst (getIndexValue tokens "Android") + 1) = Some tok ->
  looksLikeLanguageTag (Key tok) = Some false ->
  oneOf (Key tok) notDeviceTokens = false ->
  Go.Contains (Go.ToLower (Key tok)) "tablet" = false ->
  let tokens' := withoutToken tokens (fst (getIndexValue tokens "Android") + 1) in
  exists ua1 ua2 res,
    classifyOS userAgent = Some (ua1, tokens') /\
    agentLookup tokens' ua1 = Some ua2 /\
    Parse userAgent = Some res /\ res = postPass ua2 /\
    Device res = Go.TrimSpace (Go.TrimSuffix (Key tok) "Build") /\
    (forall withVerOnly name,
       findBestMatch tokens' withVerOnly = Some name ->
       name = EmptyString \/ exists t, In t tokens' /\ Key t = name).
Proof.
  intros T A L G V B tokens'.
  assert (C : exists ua1, classifyOS userAgent = Some (ua1, tokens') /\
                          Device ua1 = Go.TrimSpace (Go.TrimSuffix (Key tok) "Build")).
  { unfold classifyOS. rewrite T. unfold osLookup, osCases.
    cbn [switch osCond snd]. rewrite A. cbn [runBodies osBody].
    subst tokens'. unfold Android in *.
    destruct (getIndexValue tokens "Android") as [osIndex v]. cbn [fst] in *.
    rewrite (findAndroidDevice_device tokens osIndex tok L G V B).
    eexists. split; reflexivity. }
  destruct C as (ua1 & C & D).
  destruct (agentLookup_total tokens' ua1) as [ua2 Ag].
  exists ua1, ua2, (postPass ua2).
  repeat split; try assumption.
  - unfold Parse, classifyAgent. now rewrite C, Ag.
  - destruct (postPass_fields ua2) as (_ & _ & _ & _ & -> & _).
    pose proof (agentLookup_frame _ _ _ Ag) as F. unfold agentFrame in F.
    rewrite <- D. congruence.
  - intros withVerOnly name. apply findBestMatch_key.
Qed.

Lemma android_device_token_consumed_witness :
  let tokens' := withoutToken galaxyS9Tokens 3 in
  exists ua1 ua2 res,
    classifyOS uaGalaxyS9 = Some (ua1, tokens') /\
    agentLookup tokens' ua1 = Some ua2 /\
    Parse uaGalaxyS9 = Some res /\ res = postPass ua2 /\
    Device res = "SM-G960F" /\
    (forall withVerOnly name,
       findBestMatch tokens' withVerOnly = Some name ->
       name = EmptyString \/ exists t, In t tokens' /\ Key t = name).
Proof.
  refine (android_device_token_consumed uaGalaxyS9 (newUserAgent uaGalaxyS9)
            galaxyS9Tokens {| Key := "SM-G960F Build"; Value := "R16NW" |}
            _ _ _ _ _ _); vm_compute; reflexivity.
Defined.

(** Before the OS lookup the best match with a value is the device token;
    after it, no token of the store is a best match. *)
Example galaxyS9_best_match :
  findBestMatch galaxyS9Tokens true = Some "SM-G960F Build" /\
  findBestMatch (withoutToken galaxyS9Tokens 3) true = Some EmptyString /\
  findBestMatch (withoutToken galaxyS9Tokens 3) false = Some EmptyString.
Proof. repeat split. Qed.

(** ** [checkVer] on the Chrome OS token *)

Lemma prefix_empty (s : string) : String.prefix EmptyString s = true.
Proof. now destruct s. Qed.

Lemma lastIndexFrom_no_space (v : string) :
  Go.Contains v " " = false ->
  forall i acc, Go.lastIndexFrom v " " i acc = acc.
Proof.
  induction v as [|a v IH]; intros H i acc.
  - reflexivity.
  - cbn [Go.Contains] in H. apply orb_false_iff in H. destruct H as [P C].
    cbn [Go.lastIndexFrom]. rewrite P. now apply IH.
Qed.

Lemma lastIndexFrom_app (a s : string) :
  forall i acc,
    Go.lastIndexFrom (a ++ s) " " i acc =
    Go.lastIndexFrom s " " (i + Go.len a) (Go.lastIndexFrom a " " i acc).
Proof.
  induction a as [|c a IH]; intros i acc.
  - cbn. now rewrite Z.add_0_r.
  - cbn [append Go.lastIndexFrom]. rewrite IH.
    replace (Go.len (String c a)) with (1 + Go.len a)
      by (unfold Go.len; cbn [String.length]; lia).
    replace (i + (1 + Go.len a)) with (i + 1 + Go.len a) by lia.
    cbn [String.prefix]. now rewrite !prefix_empty.
Qed.

Lemma LastIndex_before_last_word (a v : string) :
  Go.Contains v " " = false ->
  Go.LastIndex (a ++ String " " v) " " = Go.len a.
Proof.
  intros H. unfold Go.LastIndex. rewrite lastIndexFrom_app.
  cbn [Go.lastIndexFrom String.prefix]. rewrite prefix_empty.
  destruct (ascii_dec " " " ") as [_|N]; [|now elim N].
  rewrite lastIndexFrom_no_space by exact H. lia.
Qed.

Lemma len_app (a s : string) : Go.len (a ++ s) = Go.len a + Go.len s.
Proof.
  unfold Go.len. induction a as [|c a IH]; cbn [append String.length]; lia.
Qed.

Lemma substring_prefix (a s : string) :
  substring 0 (String.length a) (a ++ s) = a.
Proof.
  induction a as [|c a IH]; cbn.
  - now destruct s.
  - now rewrite IH.
Qed.

Lemma checkVer_CrOS_key (key arch version : string) :
  key = "CrOS " ++ arch ->
  (key =? "Linux")%string || (key =? "Windows NT")%string
    || (key =? "Windows Phone OS")%string || (key =? "MSIE")%string
    || (key =? "Android")%string = false ->
  (key =? "CrOS x86_64")%string || (key =? "CrOS aarch64")%string
    || (key =? "CrOS armv7l")%string = true ->
  Go.LastIndex key " " = 4 ->
  Go.Contains version " " = false ->
  checkVer (key ++ String " " version) = Some ("CrOS", arch).
Proof.
  intros K C1 C2 J H.
  assert (P : 0 <= Go.len version) by (unfold Go.len; lia).
  assert (Lk : Go.len key = 5 + Go.len arch) by (subst key; now rewrite len_app).
  assert (Pa : 0 <= Go.len arch) by (unfold Go.len; lia).
  assert (Ls : Go.len (key ++ String " " version) = Go.len key + 1 + Go.len version).
  { rewrite len_app. unfold Go.len. cbn [String.length]. lia. }
  unfold checkVer.
  rewrite (LastIndex_before_last_word key version H).
  replace (Go.len key =? -1) with false by (symmetry; apply Z.eqb_neq; lia).
  rewrite slice_in_range by lia.
  assert (S1 : substring (Z.to_nat 0) (Z.to_nat (Go.len key - 0)) (key ++ String " " version)
               = key).
  { unfold Go.len. rewrite Z.sub_0_r, Nat2Z.id. apply substring_prefix. }
  rewrite S1, C1, C2, J.
  rewrite !slice_in_range by lia.
  rewrite Lk. replace (5 + Go.len arch - (4 + 1)) with (Go.len arch) by lia.
  unfold Go.len. rewrite Nat2Z.id.
  change (Z.to_nat 0) with 0%nat. change (Z.to_nat (4 - 0)) with 4%nat.
  change (Z.to_nat (4 + 1)) with 5%nat.
  subst key. cbn [append substring]. now rewrite substring_prefix.
Qed.




(** * Further properties of the code *)

(** ** The token store: lookups *)

Lemma getIndexValueFrom_spec (key : string) (p : properties) :
  forall i,
    snd (getIndexValueFrom p i key) = get p key /\
    (exists_ p key = false -> fst (getIndexValueFrom p i key) = -1) /\
    (exists_ p key = true ->
     exists n t,
       fst (getIndexValueFrom p i key) = i + Z.of_nat n /\
       nth_error p n = Some t /\ Key t = key /\ Value t = get p key /\
       forall m t', (m < n)%nat -> nth_error p m = Some t' ->
                    (Key t' =? key)%string = false).
Proof.
  induction p as [|prop p IH]; intros i; cbn [getIndexValueFrom get exists_].
  - split; [reflexivity|]. split; [reflexivity | discriminate].
  - destruct (Key prop =? key)%string eqn:E.
    + split; [reflexivity|]. split; [discriminate|]. intros _.
      exists 0%nat, prop. apply String.eqb_eq in E. cbn [fst nth_error].
      split; [lia|]. split; [reflexivity|]. split; [exact E|].
      split; [reflexivity|]. intros m t' Hm. lia.
    + destruct (IH (i + 1)) as (S & N & Y).
      split; [exact S|]. split; [exact N|].
      intros X. destruct (Y X) as (n & t & F & Hn & K & V & B).
      exists (Datatypes.S n), t.
      split; [lia|]. split; [exact Hn|]. split; [exact K|]. split; [exact V|].
      intros [|m] t' Hm; cbn [nth_error].
      * now intros [= <-].
      * apply B. lia.
Qed.

Lemma lindex_nth {A} (l : list A) (n : nat) (x : A) :
  nth_error l n = Some x -> Go.lindex l (Z.of_nat n) = Some x.
Proof.
  intros H. unfold Go.lindex.
  assert (n < List.length l)%nat by (apply nth_error_Some; congruence).
  replace ((0 <=? Z.of_nat n) && (Z.of_nat n <? Go.llen l)) with true.
  - now rewrite Nat2Z.id.
  - symmetry. apply andb_true_iff. unfold Go.llen.
    split; [apply Z.leb_le | apply Z.ltb_lt]; lia.
Qed.

(** X1.  A key that is missing from the store is looked up as the empty
    string, at index -1, without a failure. *)
Theorem lookup_missing_key (p : properties) (key : string) :
  exists_ p key = false ->
  get p key = EmptyString /\ getIndexValue p key = (-1, EmptyString).
Proof.
  intros H. destruct (getIndexValueFrom_spec key p 0) as (S & N & _).
  specialize (N H).
  assert (G : get p key = EmptyString).
  { clear S N. induction p as [|prop p IH]; [reflexivity|].
    cbn [get exists_] in *. destruct (Key prop =? key)%string; [discriminate|].
    now apply IH. }
  split; [exact G|]. unfold getIndexValue.
  destruct (getIndexValueFrom p 0 key) as [i v]. cbn [fst snd] in *. congruence.
Qed.

Lemma lookup_missing_key_witness :
  get whaleTokens "Firefox" = EmptyString /\
  getIndexValue whaleTokens "Firefox" = (-1, EmptyString).
Proof. exact (lookup_missing_key whaleTokens "Firefox" eq_refl). Defined.

(** X2.  For a key of the store, [getIndexValue] returns the index of the
    first token with that key, in range, and the value that [get] returns;
    no token before it has the key. *)
Theorem lookup_first_match (p : properties) (key : string) :
  exists_ p key = true ->
  exists i t,
    getIndexValue p key = (i, get p key) /\
    0 <= i < Go.llen p /\
    Go.lindex p i = Some t /\ Key t = key /\ Value t = get p key /\
    (forall j t', 0 <= j < i -> Go.lindex p j = Some t' -> Key t' <> key).
Proof.
  intros H. destruct (getIndexValueFrom_spec key p 0) as (S & _ & Y).
  destruct (Y H) as (n & t & F & Hn & K & V & B).
  exists (Z.of_nat n), t.
  assert (n < List.length p)%nat by (apply nth_error_Some; congruence).
  repeat split.
  - unfold getIndexValue. destruct (getIndexValueFrom p 0 key) as [i v].
    cbn [fst snd] in *. f_equal; [lia | exact S].
  - lia.
  - unfold Go.llen. lia.
  - now apply lindex_nth.
  - exact K.
  - exact V.
  - intros j t' Hj L E.
    unfold Go.lindex in L.
    destruct ((0 <=? j) && (j <? Go.llen p)); [|discriminate].
    apply (B (Z.to_nat j) t') in L; [|lia].
    apply String.eqb_neq in L. contradiction.
Qed.

Lemma lookup_first_match_witness :
  exists i t,
    getIndexValue galaxyS9Tokens "Android" = (i, get galaxyS9Tokens "Android") /\
    0 <= i < Go.llen galaxyS9Tokens /\
    Go.lindex galaxyS9Tokens i = Some t /\ Key t = "Android" /\
    Value t = get galaxyS9Tokens "Android" /\
    (forall j t', 0 <= j < i -> Go.lindex galaxyS9Tokens j = Some t' ->
                  Key t' <> "Android").
Proof. exact (lookup_first_match galaxyS9Tokens "Android" eq_refl). Defined.

(** X3.  Adding a token never changes the lookup of a key the store holds
    already (the first match wins); a new key is looked up as the value just
    added. *)
Theorem add_then_lookup (p : properties) (key value k : string) :
  exists_ (add p key value) k = exists_ p k || (key =? k)%string /\
  get (add p key value) k =
    if exists_ p k then get p k
    else if (key =? k)%string then value else EmptyString.
Proof.
  unfold add. induction p as [|prop p [IH1 IH2]]; cbn [app exists_ get Key Value].
  - destruct (key =? k)%string; split; reflexivity.
  - destruct (Key prop =? k)%string; [split; reflexivity|]. split; assumption.
Qed.

(** X4.  [existsAny] holds exactly when some token of the store has one of
    the keys: the order of the keys and of the tokens does not matter. *)
Theorem existsAny_some_token (p : properties) (keys : list string) :
  existsAny p keys = existsb (fun t => oneOf (Key t) keys) p.
Proof.
  assert (E : forall k, exists_ p k = existsb (fun t => (Key t =? k)%string) p).
  { intros k. induction p as [|t p IH]; [reflexivity|].
    cbn [exists_ existsb]. rewrite IH. now destruct (Key t =? k)%string. }
  induction keys as [|k keys IH]; cbn [existsAny oneOf].
  - clear E. induction p as [|t p IHp]; [reflexivity | exact IHp].
  - rewrite IH, E. clear.
    induction p as [|t p IHp]; cbn [existsb]; [reflexivity|].
    rewrite <- IHp.
    destruct (Key t =? k)%string, (oneOf (Key t) keys),
      (existsb (fun t0 => (Key t0 =? k)%string) p),
      (existsb (fun t0 => oneOf (Key t0) keys) p); reflexivity.
Qed.

(** ** The token store: the best generic match *)

Lemma bestMatchPass_sound (i : Z) (l : list property) (k : string) :
  bestMatchPass i l = Some (Some k) ->
  exists t, In t l /\ Key t = k /\
            oneOf k genericTokens = false /\
            startsWithNumber k = Some false /\
            (i = 0 -> nonEmpty (Value t) = true).
Proof.
  induction l as [|prop l IH]; cbn [bestMatchPass]; [discriminate|].
  assert (R : bestMatchPass i l = Some (Some k) ->
              exists t, In t (prop :: l) /\ Key t = k /\
                        oneOf k genericTokens = false /\
                        startsWithNumber k = Some false /\
                        (i = 0 -> nonEmpty (Value t) = true)).
  { intros H. destruct (IH H) as (t & Ht & R). exists t. split; [now right | exact R]. }
  destruct (oneOf (Key prop) genericTokens) eqn:G; [exact R|].
  destruct (startsWithNumber (Key prop)) as [[|]|] eqn:N; [exact R | | discriminate].
  destruct (i =? 0) eqn:I.
  - destruct (negb (Value prop =? EmptyString)%string) eqn:V; [|exact R].
    intros [= <-]. exists prop.
    split; [now left|]. split; [reflexivity|]. split; [exact G|].
    split; [exact N|]. intros _. exact V.
  - intros [= <-]. exists prop. apply Z.eqb_neq in I.
    split; [now left|]. split; [reflexivity|]. split; [exact G|].
    split; [exact N|]. intros Z0. contradiction.
Qed.

(** X5.  A name returned by [findBestMatch] is the empty string or the key
    of a token of the store that is none of the generic tokens and does not
    start with a digit; when only tokens with a value are asked for, that
    token has a non-empty value. *)
Theorem findBestMatch_sound (p : properties) (withVerOnly : bool) (name : string) :
  findBestMatch p withVerOnly = Some name ->
  name = EmptyString \/
  exists t, In t p /\ Key t = name /\
            oneOf name genericTokens = false /\
            startsWithNumber name = Some false /\
            (withVerOnly = true -> nonEmpty (Value t) = true).
Proof.
  unfold findBestMatch.
  destruct withVerOnly; cbv zeta iota;
    change (Z.to_nat 1) with 1%nat; change (Z.to_nat 2) with 2%nat;
    cbn [bestMatchLoop].
  - destruct (bestMatchPass 0 p) as [[key|]|] eqn:E; [| | discriminate].
    + intros [= <-]. right. apply bestMatchPass_sound in E.
      destruct E as (t & I & K & G & N & V). exists t.
      split; [exact I|]. split; [exact K|]. split; [exact G|].
      split; [exact N|]. intros _. now apply V.
    + intros [= <-]. now left.
  - destruct (bestMatchPass 0 p) as [[key|]|] eqn:E; [| | discriminate].
    + intros [= <-]. right. apply bestMatchPass_sound in E.
      destruct E as (t & I & K & G & N & V). exists t.
      split; [exact I|]. split; [exact K|]. split; [exact G|].
      split; [exact N|]. discriminate.
    + destruct (bestMatchPass (0 + 1) p) as [[key|]|] eqn:E1; [| | discriminate].
      * intros [= <-]. right. apply bestMatchPass_sound in E1.
        destruct E1 as (t & I & K & G & N & V). exists t.
        split; [exact I|]. split; [exact K|]. split; [exact G|].
        split; [exact N|]. discriminate.
      * intros [= <-]. now left.
Qed.

Lemma findBestMatch_sound_witness :
  "Whale" = EmptyString \/
  exists t, In t whaleTokens /\ Key t = "Whale" /\
            oneOf "Whale" genericTokens = false /\
            startsWithNumber "Whale" = Some false /\
            (true = true -> nonEmpty (Value t) = true).
Proof. exact (findBestMatch_sound whaleTokens true "Whale" eq_refl). Defined.

(** X6.  The search over all tokens prefers a token with a value: whatever
    the search restricted to tokens with a value returns is also what the
    unrestricted search returns, unless the first found nothing. *)
Theorem findBestMatch_prefers_value (p : properties) (name : string) :
  findBestMatch p true = Some name ->
  nonEmpty name = true ->
  findBestMatch p false = Some name.
Proof.
  unfold findBestMatch.
  cbv zeta iota. change (Z.to_nat 1) with 1%nat. change (Z.to_nat 2) with 2%nat.
  cbn [bestMatchLoop].
  destruct (bestMatchPass 0 p) as [[key|]|]; try discriminate.
  - auto.
  - intros [= <-]. discriminate.
Qed.

Lemma findBestMatch_prefers_value_witness :
  findBestMatch whaleTokens false = Some "Whale".
Proof. exact (findBestMatch_prefers_value whaleTokens "Whale" eq_refl eq_refl). Defined.

(** ** [findVersion] *)

Lemma verByte_replaced (c : ascii) :
  Go.isVerByte c = true ->
  isDigitOrDot (if Ascii.eqb c "_" then "."%char else c) = true.
Proof.
  destruct c as [b0 b1 b2 b3 b4 b5 b6 b7].
  destruct b0, b1, b2, b3, b4, b5, b6, b7; vm_compute; intros H;
    first [ reflexivity | discriminate H ].
Qed.

Lemma takeRun_verBytes (s : string) : allBytes Go.isVerByte (Go.takeRun s) = true.
Proof.
  induction s as [|c s IH]; cbn [Go.takeRun]; [reflexivity|].
  destruct (Go.isVerByte c) eqn:E; [|reflexivity].
  cbn [allBytes]. now rewrite E, IH.
Qed.

Lemma FindVerRun_verBytes (s : string) : allBytes Go.isVerByte (Go.FindVerRun s) = true.
Proof.
  induction s as [|c s IH]; cbn [Go.FindVerRun]; [reflexivity|].
  destruct (Go.isVerByte c) eqn:E; [|exact IH].
  apply (takeRun_verBytes (String c s)).
Qed.

Lemma ReplaceByte_digits (r : string) :
  allBytes Go.isVerByte r = true ->
  allBytes isDigitOrDot (Go.ReplaceByte r "_" ".") = true.
Proof.
  induction r as [|c r IH]; cbn [allBytes Go.ReplaceByte]; [reflexivity|].
  intros H. apply andb_true_iff in H. destruct H as [H1 H2].
  now rewrite (verByte_replaced c H1), IH.
Qed.

Lemma findVersion_digits (s : string) : allBytes isDigitOrDot (findVersion s) = true.
Proof.
  unfold findVersion. destruct (negb _); [|reflexivity].
  apply ReplaceByte_digits, FindVerRun_verBytes.
Qed.

Lemma findVersion_nonEmpty (s : string) :
  nonEmpty (findVersion s) = negb (allBytes (fun c => negb (Go.isVerByte c)) s).
Proof.
  induction s as [|c s IH]; [reflexivity|].
  cbn [allBytes]. destruct (Go.isVerByte c) eqn:E.
  - unfold findVersion. cbn [Go.FindVerRun]. rewrite E. cbn [Go.takeRun]. rewrite E.
    reflexivity.
  - cbn [negb andb]. rewrite <- IH. unfold findVersion. cbn [Go.FindVerRun].
    now rewrite E.
Qed.

Lemma findMacOSVersion_digits (p : properties) :
  allBytes isDigitOrDot (findMacOSVersion p) = true.
Proof.
  induction p as [|t p IH]; cbn [findMacOSVersion]; [reflexivity|].
  repeat match goal with
    | |- context [if ?b then _ else _] => destruct b
    end; try exact IH; apply findVersion_digits.
Qed.

(** X7.  A version found by [findVersion] is made of ASCII digits and dots
    only (the underscores are replaced), and it is empty exactly when the
    text holds no digit, dot or underscore; hence the versions found by
    [findMacOSVersion] and [findInstagramVersion] are made of digits and
    dots, too. *)
Theorem findVersion_digits_and_dots :
  (forall s, allBytes isDigitOrDot (findVersion s) = true /\
             nonEmpty (findVersion s)
             = negb (allBytes (fun c => negb (Go.isVerByte c)) s)) /\
  (forall p, allBytes isDigitOrDot (findMacOSVersion p) = true /\
             allBytes isDigitOrDot (findInstagramVersion p) = true).
Proof.
  split.
  - intros s. split; [apply findVersion_digits | apply findVersion_nonEmpty].
  - intros p. split; induction p as [|t p IH];
      cbn [findMacOSVersion findInstagramVersion]; try reflexivity;
      repeat match goal with
        | |- context [if ?b then _ else _] => destruct b
        end; try exact IH; apply findVersion_digits.
Qed.

(** ** [checkVer] *)

Lemma last_space_split (s : string) :
  Go.Contains s " " = false \/
  exists a v, s = a ++ String " " v /\ Go.Contains v " " = false.
Proof.
  induction s as [|c s IH]; [now left|].
  destruct IH as [IH|(a & v & E & IH)]; [|subst s].
  - destruct (ascii_dec c " ") as [->|N].
    + right. exists EmptyString, s. split; [reflexivity | exact IH].
    + left. cbn [Go.Contains String.prefix]. rewrite IH.
      destruct (ascii_dec " " c) as [E|_]; [now elim N | reflexivity].
  - right. exists (String c a), v. split; [reflexivity | exact IH].
Qed.

Lemma substring_all (v : string) : substring 0 (String.length v) v = v.
Proof. induction v as [|c v IH]; cbn; [reflexivity | now rewrite IH]. Qed.

Lemma substring_skip (a b : string) (n m : nat) :
  substring (String.length a + n) m (a ++ b) = substring n m b.
Proof. induction a as [|c a IH]; cbn; [reflexivity | exact IH]. Qed.

Lemma checkVer_no_space (s : string) :
  Go.Contains s " " = false -> checkVer s = Some (s, EmptyString).
Proof.
  intros H. unfold checkVer, Go.LastIndex.
  now rewrite (lastIndexFrom_no_space s H).
Qed.

Lemma checkVer_last_word (a v : string) :
  Go.Contains v " " = false ->
  checkVer (a ++ String " " v) =
    Some (if oneOf a versionLabels then (a, v)
          else if oneOf a crosLabels
               then ("CrOS", substring 5 (String.length a - 5) a)
               else (a ++ String " " v, EmptyString)).
Proof.
  intros H.
  destruct (oneOf a versionLabels) eqn:V1; [|destruct (oneOf a crosLabels) eqn:V2].
  2:{ cbn [oneOf crosLabels] in V2. rewrite orb_false_r, !orb_true_iff in V2.
      rewrite !String.eqb_eq in V2.
      destruct V2 as [-> | [-> | ->]];
        (apply checkVer_CrOS_key; [reflexivity | reflexivity | reflexivity
                                  | reflexivity | exact H]). }
  all: assert (P : 0 <= Go.len v) by (unfold Go.len; lia).
  all: assert (Pa : 0 <= Go.len a) by (unfold Go.len; lia).
  all: assert (Ls : Go.len (a ++ String " " v) = Go.len a + 1 + Go.len v)
         by (rewrite len_app; unfold Go.len; cbn [String.length]; lia).
  all: assert (C1 : (a =? "Linux")%string || (a =? "Windows NT")%string
                    || (a =? "Windows Phone OS")%string || (a =? "MSIE")%string
                    || (a =? "Android")%string = oneOf a versionLabels)
         by (cbn [oneOf versionLabels]; rewrite orb_false_r, !orb_assoc; reflexivity).
  all: unfold checkVer.
  all: rewrite (LastIndex_before_last_word a v H).
  all: replace (Go.len a =? -1) with false by (symmetry; apply Z.eqb_neq; lia).
  all: rewrite slice_in_range by lia.
  all: replace (substring (Z.to_nat 0) (Z.to_nat (Go.len a - 0)) (a ++ String " " v))
         with a
         by (unfold Go.len; rewrite Z.sub_0_r, Nat2Z.id; symmetry;
             apply substring_prefix).
  all: rewrite C1, V1.
  - rewrite slice_in_range by lia. do 3 f_equal.
    replace (Z.to_nat (Go.len a + 1)) with (String.length a + 1)%nat
      by (unfold Go.len; lia).
    replace (Z.to_nat (Go.len (a ++ String " " v) - (Go.len a + 1)))
      with (String.length v) by (rewrite Ls; unfold Go.len; lia).
    rewrite substring_skip. cbn [substring]. apply substring_all.
  - assert (C2 : (a =? "CrOS x86_64")%string || (a =? "CrOS aarch64")%string
                 || (a =? "CrOS armv7l")%string = oneOf a crosLabels)
      by (cbn [oneOf crosLabels]; rewrite orb_false_r, !orb_assoc; reflexivity).
    now rewrite C2, V2.
Qed.

(** X8.  [checkVer] splits a key at its last space only when what comes
    before is one of the five version labels (the key is the label, the
    version what follows it) or one of the three Chrome OS labels (the key is
    "CrOS" and the value the architecture); every other key, and every key
    without a space, is returned whole with an empty version.  Every key is
    of one of these two forms, so [checkVer] never fails. *)
Theorem checkVer_splits_labels_only :
  (forall s, Go.Contains s " " = false -> checkVer s = Some (s, EmptyString)) /\
  (forall a v,
     Go.Contains v " " = false ->
     checkVer (a ++ String " " v) =
       Some (if oneOf a versionLabels then (a, v)
             else if oneOf a crosLabels
                  then ("CrOS", substring 5 (String.length a - 5) a)
                  else (a ++ String " " v, EmptyString))) /\
  (forall s, Go.Contains s " " = false \/
             exists a v, s = a ++ String " " v /\ Go.Contains v " " = false).
Proof.
  split; [exact checkVer_no_space|].
  split; [exact checkVer_last_word | exact last_space_split].
Qed.

Lemma checkVer_splits_labels_only_witness :
  checkVer "Win64" = Some ("Win64", EmptyString) /\
  checkVer "Windows NT 10.0" = Some ("Windows NT", "10.0") /\
  checkVer "Intel Mac OS X 10_15_5" = Some ("Intel Mac OS X 10_15_5", EmptyString).
Proof.
  split; [|split].
  - exact (proj1 checkVer_splits_labels_only "Win64" eq_refl).
  - exact (proj1 (proj2 checkVer_splits_labels_only) "Windows NT" "10.0" eq_refl).
  - exact (proj1 (proj2 checkVer_splits_labels_only) "Intel Mac OS X" "10_15_5" eq_refl).
Defined.

(** ** The device token *)

(** X9.  [findAndroidDevice] at an index from -1 on never fails and changes
    at most the token after that index: the store is left as it is (and the
    device is empty), or that token is taken out, or its key is rewritten to
    "Tablet" when it contains "tablet"; in the last two cases the device is
    the key of that token, less a suffix "Build" and white space. *)
Theorem findAndroidDevice_effect (p : properties) (startIndex : Z) :
  -1 <= startIndex ->
  exists dev p',
    findAndroidDevice p startIndex = Some (dev, p') /\
    ((dev = EmptyString /\ p' = p) \/
     exists tok,
       Go.lindex p (startIndex + 1) = Some tok /\
       dev = Go.TrimSpace (Go.TrimSuffix (Key tok) "Build") /\
       ((Go.Contains (Go.ToLower (Key tok)) "tablet" = false /\
         p' = withoutToken p (startIndex + 1)) \/
        (Go.Contains (Go.ToLower (Key tok)) "tablet" = true /\
         p' = Go.replaceNth p (Z.to_nat (startIndex + 1))
                {| Key := "Tablet"; Value := Value tok |}))).
Proof.
  intros Hs. unfold findAndroidDevice.
  destruct (Go.llen p >? startIndex + 1) eqn:E; [|eauto 6].
  apply Z.gtb_lt in E.
  destruct (lindex_in_range p (startIndex + 1)) as [tok L]; [lia|]. rewrite L.
  destruct (looksLikeLanguageTag_total (Key tok)) as [tag ->].
  destruct tag; [eauto 6|].
  destruct (oneOf (Key tok) notDeviceTokens); [eauto 6|].
  destruct (Go.Contains (Go.ToLower (Key tok)) "tablet") eqn:T.
  - rewrite lset_in_range by lia. do 2 eexists. split; [reflexivity|].
    right. exists tok. auto.
  - rewrite lslice_prefix by lia.
    replace (startIndex + 2) with (startIndex + 1 + 1) by lia.
    rewrite lslice_suffix by lia. do 2 eexists. split; [reflexivity|].
    right. exists tok. auto.
Qed.

Lemma findAndroidDevice_effect_witness :
  exists dev p',
    findAndroidDevice galaxyS9Tokens 2 = Some (dev, p') /\
    ((dev = EmptyString /\ p' = galaxyS9Tokens) \/
     exists tok,
       Go.lindex galaxyS9Tokens (2 + 1) = Some tok /\
       dev = Go.TrimSpace (Go.TrimSuffix (Key tok) "Build") /\
       ((Go.Contains (Go.ToLower (Key tok)) "tablet" = false /\
         p' = withoutToken galaxyS9Tokens (2 + 1)) \/
        (Go.Contains (Go.ToLower (Key tok)) "tablet" = true /\
         p' = Go.replaceNth galaxyS9Tokens (Z.to_nat (2 + 1))
                {| Key := "Tablet"; Value := Value tok |}))).
Proof. exact (findAndroidDevice_effect galaxyS9Tokens 2 ltac:(lia)). Defined.

(** ** The OS lookup *)

Lemma matching_head_cond {St Case : Type} (cond : Case -> St -> bool)
      (cases : list Case) (st : St) (c : Case) (post : list Case) :
  matching cond cases st = c :: post -> cond c st = true.
Proof.
  induction cases as [|d cases IH]; cbn [matching]; [discriminate|].
  destruct (cond d st) eqn:E; [|exact IH].
  now intros [= <- _].
Qed.

Lemma osBody_breaks (c : osCase) (st st' : UserAgent * properties) (f : flow) :
  osBody c st = Some (st', f) -> f = Break.
Proof.
  destruct st as [ua tokens]. intros H.
  destruct c; cbn [osBody] in H; try (now injection H as _ <-).
  destruct (getIndexValue tokens Android) as [osIndex v].
  destruct (findAndroidDevice tokens osIndex) as [[dev tokens']|]; [|discriminate].
  now injection H as _ <-.
Qed.

(** The OS lookup runs the body of the selected case, if there is one. *)
Lemma osLookup_inv (st st' : UserAgent * properties) :
  osLookup st = Some st' ->
  (selected osCond osCases st = None /\ st' = st) \/
  exists c, selected osCond osCases st = Some c /\
            osCond c st = true /\
            osBody c st = Some (st', Break).
Proof.
  unfold osLookup, selected. rewrite switch_matching.
  destruct (matching osCond osCases st) as [|c post] eqn:M; cbn [runBodies hd_error].
  - intros [= <-]. now left.
  - destruct (osBody c st) as [[st1 f]|] eqn:E; [|discriminate].
    pose proof (osBody_breaks _ _ _ _ E) as ->.
    intros [= <-]. right. exists c.
    split; [reflexivity|]. split; [|exact E].
    now apply matching_head_cond in M.
Qed.

(** X10.  Only the Android case of the OS lookup touches the token store:
    without an "Android" token the OS lookup returns, and the store after it
    is the store before it. *)
Theorem osLookup_keeps_store (ua : UserAgent) (tokens : properties) :
  exists_ tokens "Android" = false ->
  exists ua', osLookup (ua, tokens) = Some (ua', tokens).
Proof.
  intros A. destruct (osLookup_total (ua, tokens)) as [[ua' tokens'] H].
  exists ua'. rewrite H. do 2 f_equal.
  apply osLookup_inv in H.
  destruct H as [[_ [= _ <-]]|(c & _ & C & B)]; [reflexivity|].
  destruct c; cbn [osCond osBody snd] in *; try (now injection B as _ <-).
  congruence.
Qed.

Lemma osLookup_keeps_store_witness :
  exists ua', osLookup (newUserAgent uaWhale, whaleTokens) = Some (ua', whaleTokens).
Proof. exact (osLookup_keeps_store (newUserAgent uaWhale) whaleTokens eq_refl). Defined.

(** ** The URL token *)

Lemma extractURL_spec (all : properties) :
  forall rest pre i ua r,
    all = (pre ++ rest)%list -> i = Go.llen pre ->
    existsb isURLToken pre = false ->
    extractURL all rest i ua = Some r ->
    (existsb isURLToken all = false /\ r = (ua, all)) \/
    exists n tok,
      nth_error all n = Some tok /\ isURLToken tok = true /\
      existsb isURLToken (firstn n all) = false /\
      r = (setURL ua (Key tok), withoutToken all (Z.of_nat n)).
Proof.
  induction rest as [|token rest IH]; intros pre i ua r Hall Hi Hpre; cbn [extractURL].
  - rewrite app_nil_r in Hall. subst all. intros [= <-]. now left.
  - fold (isURLToken token). destruct (isURLToken token) eqn:E.
    + assert (L : Go.llen all = Go.llen pre + 1 + Go.llen rest).
      { subst all. unfold Go.llen. rewrite length_app. cbn [List.length]. lia. }
      assert (P : 0 <= Go.llen pre /\ 0 <= Go.llen rest) by (unfold Go.llen; lia).
      rewrite lslice_prefix by lia. rewrite lslice_suffix by lia.
      intros [= <-]. right. exists (List.length pre), token.
      split; [subst all; rewrite nth_error_app2, Nat.sub_diag by lia; reflexivity|].
      split; [exact E|]. split.
      * subst all. rewrite firstn_app, Nat.sub_diag, firstn_all. cbn [firstn].
        now rewrite app_nil_r.
      * subst i. reflexivity.
    + apply (IH (pre ++ [token])%list).
      * subst all. now rewrite <- app_assoc.
      * subst i. unfold Go.llen. rewrite length_app. cbn [List.length]. lia.
      * rewrite existsb_app. cbn [existsb]. now rewrite Hpre, E.
Qed.

(** X11.  [Parse] takes the first token whose key starts with "http://" or
    "https://" out of the store and keeps its key as the URL; the other
    tokens stay, in their order.  Without such a token the store is the
    tokenizer's and the URL is empty. *)
Theorem tokenize_takes_first_URL (userAgent : string) :
  exists tokens ua tokens',
    parse userAgent [] = Some tokens /\
    tokenize userAgent = Some (ua, tokens') /\
    ((existsb isURLToken tokens = false /\
      ua = newUserAgent userAgent /\ tokens' = tokens) \/
     exists n tok,
       nth_error tokens n = Some tok /\ isURLToken tok = true /\
       existsb isURLToken (firstn n tokens) = false /\
       ua = setURL (newUserAgent userAgent) (Key tok) /\
       tokens' = withoutToken tokens (Z.of_nat n)).
Proof.
  destruct (parse_total userAgent []) as [tokens P].
  destruct (tokenize_total userAgent) as [[ua tokens'] T].
  exists tokens, ua, tokens'. split; [exact P|]. split; [exact T|].
  unfold tokenize in T. rewrite P in T.
  apply (extractURL_spec tokens tokens [] 0) in T; try reflexivity.
  destruct T as [[N [= -> ->]]|(n & tok & H1 & H2 & H3 & [= -> ->])].
  - left. auto.
  - right. exists n, tok. auto.
Qed.

Lemma tokenize_inv (userAgent : string) (ua : UserAgent) (tokens' : properties) :
  tokenize userAgent = Some (ua, tokens') ->
  ua = newUserAgent userAgent \/
  exists tok, isURLToken tok = true /\ ua = setURL (newUserAgent userAgent) (Key tok).
Proof.
  unfold tokenize. destruct (parse userAgent []) as [tokens|]; [|discriminate].
  intros T. apply (extractURL_spec tokens tokens [] 0) in T; try reflexivity.
  destruct T as [[N [= -> ->]]|(n & tok & H1 & H2 & H3 & [= -> ->])].
  - now left.
  - right. exists tok. auto.
Qed.

(** ** The result of [Parse] *)

(** The stages of [Parse] on an input. *)
Lemma Parse_stages (userAgent : string) :
  exists ua0 tokens0 ua1 tokens1 ua2,
    tokenize userAgent = Some (ua0, tokens0) /\
    osLookup (ua0, tokens0) = Some (ua1, tokens1) /\
    classifyOS userAgent = Some (ua1, tokens1) /\
    agentLookup tokens1 ua1 = Some ua2 /\
    classifyAgent userAgent = Some ua2 /\
    Parse userAgent = Some (postPass ua2).
Proof.
  destruct (tokenize_total userAgent) as [[ua0 tokens0] T].
  destruct (osLookup_total (ua0, tokens0)) as [[ua1 tokens1] O].
  destruct (agentLookup_total tokens1 ua1) as [ua2 A].
  exists ua0, tokens0, ua1, tokens1, ua2.
  assert (C : classifyOS userAgent = Some (ua1, tokens1))
    by (unfold classifyOS; now rewrite T).
  assert (G : classifyAgent userAgent = Some ua2)
    by (unfold classifyAgent; now rewrite C).
  repeat split; try assumption. unfold Parse. now rewrite G.
Qed.

Lemma postPass_bot_any (ua : UserAgent) :
  Bot (postPass ua) =
    Bot ua || nonEmpty (URL ua) || oneOf (Name ua) [Twitterbot; FacebookExternalHit].
Proof.
  unfold postPass.
  destruct (androidIsMobile_spec ua) as (F0 & B0).
  destruct (tabletIsNotMobile_spec (androidIsMobile ua)) as (F1 & B1 & _).
  set (u := tabletIsNotMobile (androidIsMobile ua)) in *.
  destruct (botIfURL_spec u) as (F2 & _ & B2).
  destruct (botIfKnownName_spec (botIfURL u)) as (_ & _ & B3).
  destruct (parseVersions_spec (botIfKnownName (botIfURL u))) as (_ & _ & B4).
  rewrite B4, B3, B2, B1, B0.
  rewrite F0 in F1. rewrite F1 in F2. unfold postFrame in F1, F2.
  assert (U : URL u = URL ua) by congruence.
  assert (N : Name (botIfURL u) = Name ua) by congruence.
  now rewrite U, N.
Qed.

Lemma postPass_mobile (ua : UserAgent) :
  Mobile (postPass ua) = if Tablet ua then false else IsAndroid ua || Mobile ua.
Proof.
  unfold postPass.
  set (u := tabletIsNotMobile (androidIsMobile ua)).
  destruct (botIfURL_spec u) as (_ & M1 & _).
  destruct (botIfKnownName_spec (botIfURL u)) as (_ & M2 & _).
  destruct (parseVersions_spec (botIfKnownName (botIfURL u))) as (_ & M3 & _).
  rewrite M3, M2, M1. subst u. unfold tabletIsNotMobile, androidIsMobile.
  destruct (IsAndroid ua); cbn [Tablet setMobile];
    destruct (Tablet ua); reflexivity.
Qed.

(** X12.  The result of [Parse] carries the input in its field [String]. *)
Theorem Parse_keeps_input (userAgent : string) :
  exists res, Parse userAgent = Some res /\ String_ res = userAgent.
Proof.
  destruct (Parse_stages userAgent) as (ua0 & t0 & ua1 & t1 & ua2 & T & O & _ & A & _ & P).
  exists (postPass ua2). split; [exact P|].
  pose proof (postPass_frame ua2) as F3. unfold postFrame in F3.
  apply agentLookup_frame in A. unfold agentFrame in A.
  apply osLookup_frame in O. unfold osFrame in O. cbn [fst] in O.
  assert (S0 : String_ ua0 = userAgent).
  { apply tokenize_inv in T. destruct T as [->|(tok & _ & ->)]; reflexivity. }
  congruence.
Qed.

(** X13.  The URL of a result is empty or starts with "http://" or
    "https://", and a result with a URL is a bot. *)
Theorem Parse_URL_is_bot (userAgent : string) :
  exists res,
    Parse userAgent = Some res /\
    (URL res = EmptyString \/
     (Go.HasPrefix (URL res) "http://" || Go.HasPrefix (URL res) "https://" = true /\
      Bot res = true)).
Proof.
  destruct (Parse_stages userAgent) as (ua0 & t0 & ua1 & t1 & ua2 & T & O & _ & A & _ & P).
  exists (postPass ua2). split; [exact P|].
  destruct (postPass_fields ua2) as (_ & _ & _ & _ & _ & U3).
  apply agentLookup_frame in A. unfold agentFrame in A.
  apply osLookup_frame in O. unfold osFrame in O. cbn [fst] in O.
  assert (U : URL ua2 = URL ua0) by congruence.
  rewrite postPass_bot_any, U3, U.
  apply tokenize_inv in T. destruct T as [->|(tok & K & ->)].
  - now left.
  - right. cbn [URL setURL]. split; [exact K|].
    rewrite (url_key_nonEmpty tok K). now rewrite orb_true_r.
Qed.

(** X14.  The flag [Mobile] of a result: it is false for a tablet; if not,
    it is true on Android, and elsewhere it is what the agent lookup left.
    The post-pass never clears the flag [Bot]. *)
Theorem Parse_mobile_flag (userAgent : string) :
  exists ua res,
    classifyAgent userAgent = Some ua /\
    Parse userAgent = Some res /\
    Tablet res = Tablet ua /\
    Mobile res = (if Tablet res then false else IsAndroid res || Mobile ua) /\
    Bot res = Bot ua || nonEmpty (URL res)
              || oneOf (Name res) [Twitterbot; FacebookExternalHit].
Proof.
  destruct (Parse_stages userAgent) as (ua0 & t0 & ua1 & t1 & ua2 & _ & _ & _ & _ & G & P).
  exists ua2, (postPass ua2). split; [exact G|]. split; [exact P|].
  pose proof (postPass_frame ua2) as F. unfold postFrame in F.
  assert (T : Tablet (postPass ua2) = Tablet ua2) by congruence.
  assert (O : IsAndroid (postPass ua2) = IsAndroid ua2)
    by (unfold IsAndroid; f_equal; congruence).
  destruct (postPass_fields ua2) as (N & _ & _ & _ & _ & U).
  split; [exact T|]. rewrite T, O, N, U.
  split; [apply postPass_mobile | apply postPass_bot_any].
Qed.

Lemma osLookup_OS_Desktop (st st' : UserAgent * properties) :
  osLookup st = Some st' ->
  OS (fst st) = EmptyString -> Desktop (fst st) = false ->
  oneOf (OS (fst st')) knownOS = true /\
  Desktop (fst st') = oneOf (OS (fst st')) desktopOS.
Proof.
  intros H HO HD. apply osLookup_inv in H.
  destruct H as [[_ ->]|(c & _ & _ & B)].
  - rewrite HO, HD. split; reflexivity.
  - destruct st as [ua tokens]. cbn [fst] in *.
    destruct c; cbn [osBody] in B;
      try (injection B as <-; cbn [fst OS Desktop setOS setOSVersion setDesktop
                                   setMobile setTablet setDevice];
           rewrite ?HD; split; reflexivity).
    destruct (getIndexValue tokens Android) as [osIndex v].
    destruct (findAndroidDevice tokens osIndex) as [[dev tokens']|]; [|discriminate].
    injection B as <-. cbn. rewrite HD. split; reflexivity.
Qed.

(** X15.  The OS of a result is one of the nine operating systems of ua.go
    or empty: it is the OS that the OS lookup chose, or empty.  The flag
    [Desktop] is true exactly when the OS lookup chose Windows, macOS,
    Linux, FreeBSD or ChromeOS. *)
Theorem Parse_OS_and_desktop (userAgent : string) :
  exists ua1 tokens res,
    classifyOS userAgent = Some (ua1, tokens) /\
    Parse userAgent = Some res /\
    oneOf (OS res) knownOS = true /\
    (OS res = OS ua1 \/ OS res = EmptyString) /\
    Desktop res = oneOf (OS ua1) desktopOS.
Proof.
  destruct (Parse_stages userAgent) as (ua0 & t0 & ua1 & t1 & ua2 & T & O & C & A & _ & P).
  exists ua1, t1, (postPass ua2). split; [exact C|]. split; [exact P|].
  pose proof (postPass_frame ua2) as F. unfold postFrame in F.
  assert (F1 : OS (postPass ua2) = OS ua2) by congruence.
  assert (F2 : Desktop (postPass ua2) = Desktop ua2) by congruence.
  pose proof (agentLookup_OS _ _ _ A) as AO.
  apply agentLookup_frame in A. unfold agentFrame in A.
  assert (F3 : Desktop ua2 = Desktop ua1) by congruence.
  apply osLookup_OS_Desktop in O;
    [| apply tokenize_inv in T; destruct T as [->|(tok & _ & ->)]; reflexivity
     | apply tokenize_inv in T; destruct T as [->|(tok & _ & ->)]; reflexivity ].
  cbn [fst] in O. destruct O as [K D].
  rewrite F1, F2, F3, AO.
  destruct (agentSelected t1 ua1) as [[]|]; auto.
Qed.

(** ** The tokenizer *)

Lemma addToken_prepend (pre : properties) (st : scanner) :
  addToken (prependTokens pre st) = option_map (prependTokens pre) (addToken st).
Proof.
  unfold addToken, prependTokens.
  cbn [buff val slash isURL parOpen braOpen toks].
  destruct (negb (Go.len (buff st) =? 0)); [|reflexivity].
  destruct (negb (ignore (Go.TrimSpace (buff st)))); [|reflexivity].
  destruct (Go.len (val st) =? 0).
  - destruct (checkVer _) as [[k v]|]; [|reflexivity].
    cbn. unfold add. now rewrite app_assoc.
  - cbn. unfold add. now rewrite app_assoc.
Qed.

Lemma scanByte_prepend (userAgent : string) (i : Z) (pre : properties) (st : scanner) :
  scanByte userAgent i (prependTokens pre st)
  = option_map (prependTokens pre) (scanByte userAgent i st).
Proof.
  unfold scanByte. rewrite !addToken_prepend.
  change (buff (prependTokens pre st)) with (buff st).
  change (val (prependTokens pre st)) with (val st).
  change (slash (prependTokens pre st)) with (slash st).
  change (isURL (prependTokens pre st)) with (isURL st).
  change (parOpen (prependTokens pre st)) with (parOpen st).
  change (braOpen (prependTokens pre st)) with (braOpen st).
  destruct (Go.index userAgent i) as [c|]; [|reflexivity].
  destruct (addToken st) as [st'|]; cbn [option_map];
    repeat match goal with
      | |- context [if ?b then _ else _] => destruct b
      | |- context [match ?o with Some _ => _ | None => _ end] =>
          lazymatch o with
          | andAlso _ _ => destruct o as [[|]|]
          end
      end; reflexivity.
Qed.

Lemma scanLoop_prepend (userAgent : string) (pre : properties) :
  forall n i st,
    scanLoop userAgent n i (prependTokens pre st)
    = option_map (prependTokens pre) (scanLoop userAgent n i st).
Proof.
  induction n as [|n IH]; intros i st; cbn [scanLoop]; [reflexivity|].
  rewrite scanByte_prepend.
  destruct (scanByte userAgent i st) as [st'|]; cbn [option_map]; [apply IH | reflexivity].
Qed.

(** X16.  The tokenizer only appends to the store it is given: the tokens
    that are there stay in front, unchanged, and the tokens it adds are the
    ones it produces from an empty store. *)
Theorem parse_appends (userAgent : string) (tokens : properties) :
  exists new,
    parse userAgent [] = Some new /\
    parse userAgent tokens = Some (tokens ++ new)%list.
Proof.
  destruct (parse_total userAgent []) as [new P]. exists new. split; [exact P|].
  unfold parse in *.
  set (st0 := {| buff := EmptyString; val := EmptyString; slash := false;
                 isURL := false; parOpen := false; braOpen := false;
                 toks := [] |}) in *.
  replace {| buff := EmptyString; val := EmptyString; slash := false;
             isURL := false; parOpen := false; braOpen := false;
             toks := tokens |}
    with (prependTokens tokens st0)
    by (unfold prependTokens, st0; cbn; now rewrite app_nil_r).
  rewrite scanLoop_prepend.
  destruct (scanLoop userAgent (String.length userAgent) 0 st0) as [st|];
    [|discriminate].
  cbn [option_map]. rewrite addToken_prepend.
  destruct (addToken st) as [st'|]; [|discriminate].
  injection P as <-. reflexivity.
Qed.

Lemma get_app_here (a b : string) (c : ascii) :
  String.get (String.length a) (a ++ String c b) = Some c.
Proof. induction a as [|d a IH]; cbn; [reflexivity | exact IH]. Qed.

Lemma index_app_here (a b : string) (c : ascii) :
  Go.index (a ++ String c b) (Go.len a) = Some c.
Proof.
  unfold Go.index.
  replace ((0 <=? Go.len a) && (Go.len a <? Go.len (a ++ String c b))) with true.
  - unfold Go.len. rewrite Nat2Z.id. apply get_app_here.
  - symmetry. apply andb_true_iff. rewrite len_app. unfold Go.len.
    cbn [String.length]. split; [apply Z.leb_le | apply Z.ltb_lt]; lia.
Qed.

(** A byte that is no delimiter is appended to the key buffer, outside of
    the slash mode. *)
Lemma scanByte_plain (userAgent : string) (i : Z) (st : scanner) (c : ascii) :
  Go.index userAgent i = Some c ->
  isDelimiter c = false ->
  slash st = false ->
  scanByte userAgent i st = Some (withBuff st (Go.WriteByte (buff st) c)).
Proof.
  intros I D S. unfold scanByte. rewrite I, S.
  unfold isDelimiter in D. cbn [existsb] in D.
  repeat (apply orb_false_iff in D; destruct D as [?E D]).
  rewrite E, E0, E1, E2, E3, E4, E5.
  now rewrite andb_false_r.
Qed.

Lemma scanLoop_plain (b : string) :
  forall a st,
    allBytes (fun c => negb (isDelimiter c)) b = true ->
    slash st = false ->
    scanLoop (a ++ b) (String.length b) (Go.len a) st
    = Some (withBuff st (buff st ++ b)).
Proof.
  induction b as [|c b IH]; intros a st H S; cbn [scanLoop String.length].
  - unfold withBuff. destruct st; cbn.
    assert (E : forall x : string, x ++ EmptyString = x)
      by (induction x as [|d x IHx]; cbn; [reflexivity | now rewrite IHx]).
    now rewrite E.
  - cbn [allBytes] in H. apply andb_true_iff in H. destruct H as [D H].
    apply negb_true_iff in D.
    rewrite (scanByte_plain _ _ st c (index_app_here a b c) D S).
    assert (A : a ++ String c b = (a ++ String c EmptyString) ++ b).
    { clear. induction a as [|d a IHa]; cbn; [reflexivity | now rewrite <- IHa]. }
    assert (L : Go.len a + 1 = Go.len (a ++ String c EmptyString)).
    { rewrite len_app. unfold Go.len. cbn [String.length]. lia. }
    rewrite A, L, IH by assumption.
    unfold withBuff, Go.WriteByte. cbn [buff val slash isURL parOpen braOpen toks].
    do 2 f_equal.
    clear. induction (buff st) as [|d x IHx]; cbn; [reflexivity | now rewrite IHx].
Qed.

(** X17.  An input without a bracket, semicolon, colon or slash is one
    token: the input without its surrounding white space, split by
    [checkVer].  There is no token when the input is empty or one of the
    ignored words; a blank input gives a token with an empty key. *)
Theorem parse_plain_input (userAgent : string) :
  allBytes (fun c => negb (isDelimiter c)) userAgent = true ->
  exists k v,
    checkVer (Go.TrimSpace userAgent) = Some (k, v) /\
    parse userAgent [] =
      Some (if (Go.len userAgent =? 0) || ignore (Go.TrimSpace userAgent)
            then []
            else [ {| Key := k; Value := v |} ]).
Proof.
  intros H.
  destruct (checkVer_total (Go.TrimSpace userAgent)) as (k & v & C).
  exists k, v. split; [exact C|].
  unfold parse.
  pose proof (scanLoop_plain userAgent EmptyString
                {| buff := EmptyString; val := EmptyString; slash := false;
                   isURL := false; parOpen := false; braOpen := false;
                   toks := [] |} H eq_refl) as L.
  cbn [append] in L. change (Go.len EmptyString) with 0 in L. rewrite L.
  unfold addToken, withBuff. cbn [buff val slash isURL parOpen braOpen toks append].
  destruct (Go.len userAgent =? 0); cbn [negb orb]; [reflexivity|].
  destruct (ignore (Go.TrimSpace userAgent)); cbn [negb]; [reflexivity|].
  change (Go.len EmptyString =? 0) with true. cbv iota. now rewrite C.
Qed.

Lemma parse_plain_input_witness :
  (exists k v,
     checkVer (Go.TrimSpace " Windows NT 10.0 ") = Some (k, v) /\
     parse " Windows NT 10.0 " [] =
       Some (if (Go.len " Windows NT 10.0 " =? 0)
                || ignore (Go.TrimSpace " Windows NT 10.0 ")
             then []
             else [ {| Key := k; Value := v |} ])) /\
  parse " Windows NT 10.0 " [] = Some [ {| Key := "Windows NT"; Value := "10.0" |} ] /\
  parse "  " [] = Some [ {| Key := EmptyString; Value := EmptyString |} ] /\
  parse "Mozilla" [] = Some [].
Proof.
  split; [exact (parse_plain_input " Windows NT 10.0 " eq_refl)|].
  repeat split.
Defined.

(** ** The flags and the device of a result *)

Lemma agentBody_Tablet (tokens : properties) (c : agentCase) (ua ua' : UserAgent) (f : flow) :
  agentBody tokens c ua = Some (ua', f) ->
  Tablet ua' = match c with
               | AgFirefox => exists_ tokens "Tablet"
               | _ => Tablet ua
               end.
Proof.
  intros H. destruct c; cbn [agentBody] in H; run_body H; reflexivity.
Qed.

(** X18.  The agent lookup leaves the flag [Tablet] as the OS lookup set it,
    except in the case "Firefox", which sets it to the presence of a
    "Tablet" token, also when the OS lookup had set it. *)
Theorem Parse_tablet_flag (userAgent : string) :
  exists ua1 tokens res,
    classifyOS userAgent = Some (ua1, tokens) /\
    Parse userAgent = Some res /\
    Tablet res = match agentSelected tokens ua1 with
                 | Some AgFirefox => exists_ tokens "Tablet"
                 | _ => Tablet ua1
                 end.
Proof.
  destruct (Parse_stages userAgent) as (ua0 & t0 & ua1 & t1 & ua2 & _ & _ & C & A & _ & P).
  exists ua1, t1, (postPass ua2). split; [exact C|]. split; [exact P|].
  pose proof (postPass_frame ua2) as F. unfold postFrame in F.
  assert (T : Tablet (postPass ua2) = Tablet ua2) by congruence.
  rewrite T. apply agentLookup_inv in A.
  destruct A as (c & -> & [B|(-> & _ & B)]); apply agentBody_Tablet in B.
  - rewrite B. now destruct c.
  - exact B.
Qed.

Lemma osLookup_Device (st st' : UserAgent * properties) :
  osLookup st = Some st' ->
  OS (fst st) = EmptyString -> Device (fst st) = EmptyString ->
  (Device (fst st') = EmptyString \/ oneOf (OS (fst st')) [Android; IOS] = true) /\
  (if oneOf (OS (fst st')) [IOS; MacOS]
   then allBytes isDigitOrDot (OSVersion (fst st')) = true else True).
Proof.
  intros H HO HD. apply osLookup_inv in H.
  destruct H as [[_ ->]|(c & _ & _ & B)].
  - rewrite HO, HD. split; [now left | exact I].
  - destruct st as [ua tokens]. cbn [fst] in *.
    destruct c; cbn [osBody] in B;
      try (injection B as <-; cbn; rewrite ?HD;
           split; [first [now left | now right]
                  | first [exact I | apply findMacOSVersion_digits]]).
    destruct (getIndexValue tokens Android) as [osIndex v].
    destruct (findAndroidDevice tokens osIndex) as [[dev tokens']|]; [|discriminate].
    injection B as <-. cbn. split; [now right | exact I].
Qed.

(** X19.  The agent lookup and the post-pass write neither the device nor
    the OS version: both are those of the OS lookup.  The device is empty
    unless the OS lookup chose Android or iOS, and for iOS and macOS the OS
    version is made of ASCII digits and dots. *)
Theorem Parse_device_and_OSVersion (userAgent : string) :
  exists ua1 tokens res,
    classifyOS userAgent = Some (ua1, tokens) /\
    Parse userAgent = Some res /\
    Device res = Device ua1 /\
    OSVersion res = OSVersion ua1 /\
    (Device res = EmptyString \/ oneOf (OS ua1) [Android; IOS] = true) /\
    (if oneOf (OS ua1) [IOS; MacOS]
     then allBytes isDigitOrDot (OSVersion res) = true else True).
Proof.
  destruct (Parse_stages userAgent) as (ua0 & t0 & ua1 & t1 & ua2 & T & O & C & A & _ & P).
  exists ua1, t1, (postPass ua2). split; [exact C|]. split; [exact P|].
  destruct (postPass_fields ua2) as (_ & _ & _ & V & D & _).
  apply agentLookup_frame in A. unfold agentFrame in A.
  assert (D1 : Device ua2 = Device ua1) by congruence.
  assert (V1 : OSVersion ua2 = OSVersion ua1) by congruence.
  rewrite D, V, D1, V1. split; [reflexivity|]. split; [reflexivity|].
  apply osLookup_Device in O;
    [| apply tokenize_inv in T; destruct T as [->|(tok & _ & ->)]; reflexivity
     | apply tokenize_inv in T; destruct T as [->|(tok & _ & ->)]; reflexivity ].
  exact O.
Qed.
